(** * jaeger-client-go: span contexts, B3 propagation and the remote throttler

    A shallow embedding of [context.go], of the Zipkin B3 HTTP header
    propagator and of [internal/throttler/remote/throttler.go], with the
    properties of their textual formats, flag words and credit balances.

    Go values are modelled as follows.
    - [uint64], [int32] and [byte] are integers of [Z]; where Go arithmetic can
      wrap, the wrap-around is written out ([wrap64]).
    - a Go [string] is a sequence of bytes: [string] of the Standard Library
      (a list of 8-bit [ascii]); [len(s)] is [String.length s].
    - a function returning [(v, error)] returns a pair [(v, option error)];
      [None] is Go's [nil] error.
    - a [map[string]T] is a [gmap string T]; a map or struct reached through a
      pointer lives in a store indexed by locations, so that sharing between
      span contexts is visible.
    - [float64] is the kernel's binary64 [float]. *)

From Stdlib Require Import ZArith String Ascii List Lia Bool.
From Stdlib Require Import Floats.
From stdpp Require Import base option gmap strings list fin_maps.

Local Open Scope string_scope.
Local Open Scope Z_scope.

(* ===================================================================== *)
(** * Go runtime and standard library fragments used by the package     *)
(* ===================================================================== *)

(** Errors that the modelled functions can return. *)
Inductive error : Type :=
| ErrSyntax (fn num : string)            (* strconv.NumError{Err: ErrSyntax} *)
| ErrRange (fn num : string)             (* strconv.NumError{Err: ErrRange} *)
| ErrBase (fn num : string)              (* strconv: invalid base *)
| ErrBitSize (fn num : string)           (* strconv: invalid bit size *)
| errEmptyTracerStateString
| errMalformedTracerStateString
| errTraceIDTooLong (s : string)         (* fmt.Errorf("TraceID cannot be longer ...") *)
| errSpanIDTooLong (s : string)          (* fmt.Errorf("SpanID cannot be longer ...") *)
| ErrInvalidCarrier                      (* opentracing.ErrInvalidCarrier *)
| ErrSpanContextNotFound.                (* opentracing.ErrSpanContextNotFound *)

Module GoString.

(** The numeric value of a byte of a string. *)
Definition byte_val (c : ascii) : Z := Z.of_N (N_of_ascii c).

Definition byte_of (z : Z) : ascii := ascii_of_N (Z.to_N z).

(** [s[:n]] and [s[n:]]; the callers below keep [n <= len(s)]. *)
Fixpoint slice_to (n : nat) (s : string) : string :=
  match n, s with
  | S n', String c s' => String c (slice_to n' s')
  | _, _ => ""
  end.

Fixpoint slice_from (n : nat) (s : string) : string :=
  match n, s with
  | S n', String _ s' => slice_from n' s'
  | _, _ => s
  end.

(** [strings.Repeat(string(c), n)]. *)
Fixpoint repeat_byte (c : ascii) (n : nat) : string :=
  match n with
  | O => ""
  | S n' => String c (repeat_byte c n')
  end.

(** [strings.Split(s, sep)] for a separator of one byte: the pieces of [s]
    between the occurrences of [sep]; never the empty list. *)
Fixpoint Split (s : string) (sep : ascii) : list string :=
  match s with
  | "" => [""]
  | String c s' =>
      if Ascii.eqb c sep then "" :: Split s' sep
      else match Split s' sep with
           | p :: ps => String c p :: ps
           | [] => [String c ""]
           end
  end.

(** [strings.Join(elems, sep)]. *)
Fixpoint Join (elems : list string) (sep : string) : string :=
  match elems with
  | [] => ""
  | [p] => p
  | p :: ps => p +:+ sep +:+ Join ps sep
  end.

(** [strings.ToLower] on its ASCII path: the bytes ['A'..'Z'] are moved to
    ['a'..'z'] and every other byte is kept.  (Go maps the runes of a string
    that is not ASCII through the Unicode tables; header names are ASCII.) *)
Definition lower_byte (c : ascii) : ascii :=
  let v := byte_val c in
  if (65 <=? v) && (v <=? 90) then byte_of (v + 32) else c.

Fixpoint ToLower (s : string) : string :=
  match s with
  | "" => ""
  | String c s' => String (lower_byte c) (ToLower s')
  end.

End GoString.

Module Strconv.
Import GoString.

Definition maxUint64 : Z := 2 ^ 64 - 1.
Definition wrap64 (x : Z) : Z := x mod 2 ^ 64.

(** The smallest number such that [cutoff*base > maxUint64]. *)
Definition cutoff (base : Z) : Z := maxUint64 / base + 1.

(** [lower(c)] of strconv: [c | ('x' - 'X')]. *)
Definition lower (c : Z) : Z := Z.lor c 32.

(** The digit a byte stands for, in any base up to 36. *)
Definition digit_of_byte (c : Z) : option Z :=
  if (48 <=? c) && (c <=? 57) then Some (c - 48)
  else if (97 <=? lower c) && (lower c <=? 122) then Some (lower c - 97 + 10)
  else None.

(** The loop of [ParseUint] over the bytes of [s], [n] being the value read
    so far.  [s0] is the whole input, reported in errors. *)
Fixpoint parse_loop (fn s0 : string) (base maxVal cutoff : Z)
    (n : Z) (s : string) : Z * option error :=
  match s with
  | "" => (n, None)
  | String c s' =>
      match digit_of_byte (byte_val c) with
      | None => (0, Some (ErrSyntax fn s0))
      | Some d =>
          if base <=? d then (0, Some (ErrSyntax fn s0))
          else if cutoff <=? n then (maxVal, Some (ErrRange fn s0))
          else
            let n' := wrap64 (n * base) in
            let n1 := wrap64 (n' + d) in
            if (n1 <? n') || (maxVal <? n1) then (maxVal, Some (ErrRange fn s0))
            else parse_loop fn s0 base maxVal cutoff n1 s'
      end
  end.

(** [strconv.ParseUint(s, base, bitSize)] for an explicit base (2 to 36):
    no sign, no prefix and no underscore is accepted.  The package calls it
    with bases 16 and 10 only; base 0 (prefix detection) is outside this
    model and reported as [ErrBase]. *)
Definition ParseUint (s : string) (base bitSize : Z) : Z * option error :=
  let fn := "ParseUint" in
  if String.eqb s "" then (0, Some (ErrSyntax fn s))
  else if negb ((2 <=? base) && (base <=? 36)) then (0, Some (ErrBase fn s))
  else
    let bitSize := if bitSize =? 0 then 64 else bitSize in
    if (bitSize <? 0) || (64 <? bitSize) then (0, Some (ErrBitSize fn s))
    else
      let maxVal := wrap64 (wrap64 (Z.shiftl 1 bitSize) - 1) in
      parse_loop fn s base maxVal (cutoff base) 0 s.

(** ["0123456789abcdefghijklmnopqrstuvwxyz"[d]] *)
Definition digit_byte (d : Z) : ascii :=
  if d <? 10 then byte_of (48 + d) else byte_of (97 + (d - 10)).

(** The digit loop of [fmt]'s [fmtInteger] and of [formatBits] in base 16:
    [for u >= 16 { buf[i] = digits[u&0xF]; u >>= 4 }; buf[i] = digits[u]],
    writing from the end of the buffer.  A [uint64] has at most 16 digits,
    which bounds the loop. *)
Fixpoint hex_loop (fuel : nat) (u : Z) (buf : string) : string :=
  match fuel with
  | O => buf
  | S fuel' =>
      if 16 <=? u
      then hex_loop fuel' (Z.shiftr u 4) (String (digit_byte (Z.land u 15)) buf)
      else String (digit_byte u) buf
  end.

(** [strconv.FormatUint(u, 16)], which is also [fmt.Sprintf("%x", u)]. *)
Definition FormatUint16 (u : Z) : string := hex_loop 16 u "".

(** [fmt.Sprintf("%016x", u)]: zeros on the left up to 16 bytes. *)
Definition Sprintf_016x (u : Z) : string :=
  let s := FormatUint16 u in
  repeat_byte "0"%char (16 - String.length s) +:+ s.

(** [fmt.Sprintf("%x", v)] for a signed integer: a minus sign and the
    digits of the magnitude when [v] is negative. *)
Definition Sprintf_x_signed (v : Z) : string :=
  if v <? 0 then String "-"%char (FormatUint16 (- v)) else FormatUint16 v.

End Strconv.

(* ===================================================================== *)
(** * context.go                                                         *)
(* ===================================================================== *)

Import GoString Strconv.

Definition flagUnsampled : Z := 0.
Definition flagSampled : Z := 1.
Definition flagDebug : Z := 2.
Definition flagFirehose : Z := 8.

(** [TraceID]: the unique 128-bit identifier of a trace. *)
Record TraceID : Type := mkTraceID { High : Z; Low : Z }.

Definition uint64_range (x : Z) : Prop := 0 <= x < 2 ^ 64.

Definition TraceID_wf (t : TraceID) : Prop :=
  uint64_range (High t) /\ uint64_range (Low t).

Definition TraceID_String (t : TraceID) : string :=
  if High t =? 0 then FormatUint16 (Low t)
  else FormatUint16 (High t) +:+ Sprintf_016x (Low t).

Definition TraceIDFromString (s : string) : TraceID * option error :=
  let len := String.length s in
  if (32 <? len)%nat then (mkTraceID 0 0, Some (errTraceIDTooLong s))
  else if (16 <? len)%nat then
    let hiLen := (len - 16)%nat in
    match ParseUint (slice_to hiLen s) 16 64 with
    | (_, Some err) => (mkTraceID 0 0, Some err)
    | (hi, None) =>
        match ParseUint (slice_from hiLen s) 16 64 with
        | (_, Some err) => (mkTraceID 0 0, Some err)
        | (lo, None) => (mkTraceID hi lo, None)
        end
    end
  else
    match ParseUint s 16 64 with
    | (_, Some err) => (mkTraceID 0 0, Some err)
    | (lo, None) => (mkTraceID 0 lo, None)
    end.

Definition TraceID_IsValid (t : TraceID) : bool :=
  negb (High t =? 0) || negb (Low t =? 0).

Definition SpanID_String (s : Z) : string := FormatUint16 s.

Definition SpanIDFromString (s : string) : Z * option error :=
  if (16 <? String.length s)%nat then (0, Some (errSpanIDTooLong s))
  else
    match ParseUint s 16 64 with
    | (_, Some err) => (0, Some err)
    | (id, None) => (id, None)
    end.


(** ** Sampling state *)

(** [atomic.Int32]: the cell is its current value; another goroutine may
    store into it between two operations of this one. *)
Module Atomic.

(** [CAS(old, new)] on a cell holding [cur]: the new content and whether it
    swapped. *)
Definition CAS (cur old new : Z) : Z * bool :=
  if cur =? old then (new, true) else (cur, false).

(** [for !swapped { old := Load(); swapped = CAS(old, f(old)) }] on a cell
    holding [cur].  [env] lists the values that other goroutines store
    between the [Load] and the [CAS] of the successive iterations; once it
    is exhausted nothing interferes any more. *)
Fixpoint cas_loop (f : Z -> Z) (env : list Z) (cur : Z) : Z :=
  let old := cur in
  match env with
  | [] => (CAS cur old (f old)).1
  | v :: env' =>
      let '(cur', swapped) := CAS v old (f old) in
      if swapped then cur' else cas_loop f env' cur'
  end.

End Atomic.

(** Only the lower 8 bits of [_flags] are used. *)
Record samplingState : Type := mkSamplingState { _flags : Z }.

Definition setFlag_under (env : list Z) (s : samplingState) (newFlag : Z) : samplingState :=
  mkSamplingState (Atomic.cas_loop (fun old => Z.lor old newFlag) env (_flags s)).

Definition resetFlag_under (env : list Z) (s : samplingState) (newFlag : Z) : samplingState :=
  mkSamplingState (Atomic.cas_loop (fun old => Z.ldiff old newFlag) env (_flags s)).

(** The same with no other goroutine writing meanwhile. *)
Definition setFlag (s : samplingState) (newFlag : Z) : samplingState :=
  setFlag_under [] s newFlag.

Definition resetFlag (s : samplingState) (newFlag : Z) : samplingState :=
  resetFlag_under [] s newFlag.

Definition setSampled (s : samplingState) := setFlag s flagSampled.
Definition resetSampled (s : samplingState) := resetFlag s flagSampled.
Definition setDebugAndSampled (s : samplingState) := setFlag s (Z.lor flagDebug flagSampled).
Definition setFirehose (s : samplingState) := setFlag s flagFirehose.
Definition resetFlags (_ : samplingState) := mkSamplingState flagUnsampled.
Definition setFlags (_ : samplingState) (flags : Z) := mkSamplingState flags.

(** [byte(s._flags.Load())] *)
Definition flags (s : samplingState) : Z := _flags s mod 256.

Definition isSampled (s : samplingState) : bool :=
  Z.land (_flags s) flagSampled =? flagSampled.
Definition isDebug (s : samplingState) : bool :=
  Z.land (_flags s) flagDebug =? flagDebug.
Definition isFirehose (s : samplingState) : bool :=
  Z.land (_flags s) flagFirehose =? flagFirehose.

(** ** Span contexts *)

Definition loc : Type := positive.

(** The objects that span contexts point to: sampling states, shared by the
    spans of a trace, and baggage maps. *)
Record Heap : Type := mkHeap {
  states : gmap loc samplingState;
  maps : gmap loc (gmap string string)
}.

Definition empty_heap : Heap := mkHeap ∅ ∅.

Record SpanContext : Type := mkSpanContext {
  traceID : TraceID;
  spanID : Z;
  parentID : Z;
  baggage : option loc;              (* [None] is the nil map *)
  debugID : string;
  samplingState_ptr : option loc     (* [None] is the nil pointer *)
}.

Definition emptyContext : SpanContext :=
  mkSpanContext (mkTraceID 0 0) 0 0 None "" None.

(** [*c.samplingState]; [None] when the pointer is nil (Go panics). *)
Definition deref_state (h : Heap) (c : SpanContext) : option samplingState :=
  l ← samplingState_ptr c; states h !! l.

(** The key/value pairs of [c.baggage]; a nil map reads as the empty map. *)
Definition baggage_items (h : Heap) (c : SpanContext) : gmap string string :=
  match baggage c with
  | None => ∅
  | Some l => default ∅ (maps h !! l)
  end.

Definition new_state (h : Heap) (s : samplingState) : loc * Heap :=
  let l := fresh (dom (states h)) in
  (l, mkHeap (<[l := s]> (states h)) (maps h)).

Definition new_map (h : Heap) (m : gmap string string) : loc * Heap :=
  let l := fresh (dom (maps h)) in
  (l, mkHeap (states h) (<[l := m]> (maps h))).

Definition SpanContext_IsSampled (h : Heap) (c : SpanContext) : option bool :=
  isSampled <$> deref_state h c.

Definition SpanContext_IsDebug (h : Heap) (c : SpanContext) : option bool :=
  isDebug <$> deref_state h c.

Definition SpanContext_IsFirehose (h : Heap) (c : SpanContext) : option bool :=
  isFirehose <$> deref_state h c.


(** [fmt.Sprintf("%x:%x:%x:%x", ...)] or [("%x%016x:%x:%x:%x", ...)]: the
    flags word, an [int32], goes through the same [%x] verb as the ids. *)
Definition SpanContext_String (h : Heap) (c : SpanContext) : option string :=
  s ← deref_state h c;
  let tail :=
    ":" +:+ FormatUint16 (spanID c) +:+ ":" +:+ FormatUint16 (parentID c)
        +:+ ":" +:+ Sprintf_x_signed (_flags s) in
  Some (if High (traceID c) =? 0
        then FormatUint16 (Low (traceID c)) +:+ tail
        else FormatUint16 (High (traceID c)) +:+ Sprintf_016x (Low (traceID c)) +:+ tail).

Definition ContextFromString (h : Heap) (value : string)
  : SpanContext * option error * Heap :=
  if String.eqb value "" then (emptyContext, Some errEmptyTracerStateString, h)
  else
    match Split value ":"%char with
    | [p0; p1; p2; p3] =>
        match TraceIDFromString p0 with
        | (_, Some err) => (emptyContext, Some err, h)
        | (tid, None) =>
        match SpanIDFromString p1 with
        | (_, Some err) => (emptyContext, Some err, h)
        | (sid, None) =>
        match SpanIDFromString p2 with
        | (_, Some err) => (emptyContext, Some err, h)
        | (pid, None) =>
        match ParseUint p3 10 8 with
        | (_, Some err) => (emptyContext, Some err, h)
        | (fl, None) =>
            let '(l, h') := new_state h (setFlags (mkSamplingState 0) (fl mod 256)) in
            (mkSpanContext tid sid pid None "" (Some l), None, h')
        end end end end
    | _ => (emptyContext, Some errMalformedTracerStateString, h)
    end.

Definition NewSpanContext (h : Heap) (tid : TraceID) (sid pid : Z) (sampled : bool)
    (bag : option loc) : SpanContext * Heap :=
  let s := mkSamplingState 0 in
  let s := if sampled then setSampled s else s in
  let '(l, h') := new_state h s in
  (mkSpanContext tid sid pid bag "" (Some l), h').

(** [WithBaggageItem]: the new map is allocated in both branches; the map of
    [c] is only read. *)
Definition WithBaggageItem (h : Heap) (c : SpanContext) (key value : string)
  : SpanContext * Heap :=
  let newBaggage :=
    match baggage c with
    | None => {[ key := value ]}
    | Some _ => <[ key := value ]> (map_fold (fun k v nb => <[ k := v ]> nb) ∅ (baggage_items h c))
    end in
  let '(l, h') := new_map h newBaggage in
  (mkSpanContext (traceID c) (spanID c) (parentID c) (Some l) "" (samplingState_ptr c), h').

Definition isDebugIDContainerOnly (c : SpanContext) : bool :=
  negb (TraceID_IsValid (traceID c)) && negb (String.eqb (debugID c) "").


(* ===================================================================== *)
(** * zipkin: the B3 HTTP header propagator                              *)
(* ===================================================================== *)

Module Zipkin.

(** What [Inject] and [Extract] may be handed: opentracing's
    [TextMapCarrier], a [map[string]string] that is both a [TextMapWriter]
    ([Set(k, v)] is [c[k] = v]) and a [TextMapReader], or anything else. *)
Inductive carrier : Type :=
| TextMapCarrier (m : gmap string string)
| OtherCarrier.

(** [Inject]; [None] when [sc.IsSampled()] dereferences a nil sampling
    state. *)
Definition Inject (h : Heap) (sc : SpanContext) (abstractCarrier : carrier)
  : option (carrier * option error) :=
  match abstractCarrier with
  | OtherCarrier => Some (OtherCarrier, Some ErrInvalidCarrier)
  | TextMapCarrier m =>
      let m := <[ "x-b3-traceid" := TraceID_String (traceID sc) ]> m in
      let m := if negb (parentID sc =? 0)
               then <[ "x-b3-parentspanid" := FormatUint16 (parentID sc) ]> m
               else m in
      let m := <[ "x-b3-spanid" := FormatUint16 (spanID sc) ]> m in
      sampled ← SpanContext_IsSampled h sc;
      let m := if (sampled : bool) then <[ "x-b3-sampled" := "1" ]> m
               else <[ "x-b3-sampled" := "0" ]> m in
      Some (TextMapCarrier m, None)
  end.

(** The variables that the closure of [Extract] assigns. *)
Record extracted : Type := mkExtracted {
  x_traceID : TraceID;
  x_spanID : Z;
  x_parentID : Z;
  x_sampled : bool
}.

Definition extracted_init : extracted := mkExtracted (mkTraceID 0 0) 0 0 false.

(** The closure passed to [ForeachKey]. *)
Definition handler (st : extracted) (rawKey value : string) : extracted * option error :=
  let key := ToLower rawKey in
  if String.eqb key "x-b3-traceid" then
    let '(t, err) := TraceIDFromString value in
    (mkExtracted t (x_spanID st) (x_parentID st) (x_sampled st), err)
  else if String.eqb key "x-b3-parentspanid" then
    let '(p, err) := ParseUint value 16 64 in
    (mkExtracted (x_traceID st) (x_spanID st) p (x_sampled st), err)
  else if String.eqb key "x-b3-spanid" then
    let '(s, err) := ParseUint value 16 64 in
    (mkExtracted (x_traceID st) s (x_parentID st) (x_sampled st), err)
  else if String.eqb key "x-b3-sampled"
          && (String.eqb value "1" || String.eqb value "true") then
    (mkExtracted (x_traceID st) (x_spanID st) (x_parentID st) true, None)
  else (st, None).

(** [TextMapCarrier.ForeachKey]: the handler is run on the entries in the
    order [range] yields them, up to the first error. *)
Fixpoint ForeachKey (entries : list (string * string)) (st : extracted)
  : extracted * option error :=
  match entries with
  | [] => (st, None)
  | (k, v) :: rest =>
      match handler st k v with
      | (st', Some err) => (st', Some err)
      | (st', None) => ForeachKey rest st'
      end
  end.

(** Whether a key is one of the four B3 headers, whether a carrier holds
    none of them under any spelling, and whether an enumeration has a key. *)
Definition is_b3_key (k : string) : bool :=
  String.eqb k "x-b3-traceid" || String.eqb k "x-b3-parentspanid"
  || String.eqb k "x-b3-spanid" || String.eqb k "x-b3-sampled".




(** An entry that turns sampling on: [x-b3-sampled] under any spelling, with
    the value ["1"] or ["true"]. *)
Definition is_sampled_entry (kv : string * string) : bool :=
  String.eqb (ToLower kv.1) "x-b3-sampled"
  && (String.eqb kv.2 "1" || String.eqb kv.2 "true").


(** [Extract], given the order in which the carrier is enumerated. *)
Definition Extract (h : Heap) (abstractCarrier : carrier) (entries : list (string * string))
  : SpanContext * option error * Heap :=
  match abstractCarrier with
  | OtherCarrier => (emptyContext, Some ErrInvalidCarrier, h)
  | TextMapCarrier _ =>
      match ForeachKey entries extracted_init with
      | (_, Some err) => (emptyContext, Some err, h)
      | (st, None) =>
          if negb (TraceID_IsValid (x_traceID st))
          then (emptyContext, Some ErrSpanContextNotFound, h)
          else
            let '(c, h') := NewSpanContext h (x_traceID st) (x_spanID st)
                              (x_parentID st) (x_sampled st) None in
            (c, None, h')
      end
  end.

End Zipkin.

(* ===================================================================== *)
(** * internal/throttler/remote                                          *)
(* ===================================================================== *)

Module Remote.

Local Open Scope float_scope.

(** The minimum amount of credits necessary to not be throttled. *)
Definition minimumCredits : float := 1.

Record creditResponse : Type := mkCreditResponse {
  Operation : string;
  Credits : float
}.

(** A call of [FetchCredits] that reached the credit manager. *)
Record request : Type := mkRequest {
  req_uuid : string;
  req_service : string;
  req_operations : list string
}.

(** What the HTTP round trip of one [FetchCredits] call produces: the decoded
    list, and the error of [utils.GetJSON] if it failed. *)
Record reply : Type := mkReply {
  decoded : list creditResponse;
  failure : option string
}.

(** The message logged when a fetch is attempted without a uuid. *)
Definition uuid_not_set : string := "Throttler uuid is not set, failed to fetch credits".

Section Throttler.

(** The [options] struct and [applyOptions] are declared in another file
    of the package; the code below only carries the value along. *)
Variable options : Type.

(** The throttler, with what its logger and its credit manager proxy have
    received so far. *)
Record Throttler : Type := mkThrottler {
  opts : options;
  service : string;
  uuid : string;
  credits : gmap string float;
  logged : list string;
  sent : list request
}.

Definition set_credits (t : Throttler) (c : gmap string float) : Throttler :=
  mkThrottler (opts t) (service t) (uuid t) c (logged t) (sent t).

Definition log_error (t : Throttler) (msg : string) : Throttler :=
  mkThrottler (opts t) (service t) (uuid t) (credits t) (logged t ++ [msg]) (sent t).

Definition send (t : Throttler) (r : request) : Throttler :=
  mkThrottler (opts t) (service t) (uuid t) (credits t) (logged t) (sent t ++ [r]).

(** [httpCreditManagerProxy.FetchCredits]: the request goes out; a failure
    is logged and whatever was decoded is returned. *)
Definition FetchCredits (t : Throttler) (uuid serviceName : string)
    (operation : list string) (r : reply) : list creditResponse * Throttler :=
  let t := send t (mkRequest uuid serviceName operation) in
  match failure r with
  | Some err => (decoded r, log_error t ("Failed to receive credits from agent: " +:+ err))
  | None => (decoded r, t)
  end.

(** [NewThrottler]; the poller it starts is the caller's sequence of
    [fetchCredits] below. *)
Definition NewThrottler (service : string) (o : options) : Throttler :=
  mkThrottler o service "" ∅ [] [].

Definition SetUUID (t : Throttler) (u : string) : Throttler :=
  mkThrottler (opts t) (service t) u (credits t) (logged t) (sent t).

Definition fetchCreditsHelper (t : Throttler) (operations : list string) (r : reply)
  : list creditResponse * Throttler :=
  if String.eqb (uuid t) "" then
    ([], log_error t uuid_not_set)
  else FetchCredits t (uuid t) (service t) operations r.

(** [credits[operation]]: the zero value when the key is absent. *)
Definition balance (c : gmap string float) (operation : string) : float :=
  default 0 (c !! operation).

Definition isThrottled (t : Throttler) (operation : string) : bool * Throttler :=
  let c := balance (credits t) operation in
  if c <? minimumCredits then (true, t)
  else (false, set_credits t (<[ operation := c - minimumCredits ]> (credits t))).

Definition IsThrottled (t : Throttler) (operation : string) (r : reply)
  : bool * Throttler :=
  match credits t !! operation with
  | Some _ => isThrottled t operation
  | None =>
      let '(cs, t) := fetchCreditsHelper t [operation] r in
      match cs with
      | [] => (true, t)
      | c0 :: _ =>
          isThrottled (set_credits t (<[ operation := Credits c0 ]> (credits t))) operation
      end
  end.

(** [fetchCredits], first half (under the read lock, then the request):
    the operations tracked now, in the order [range] yields them. *)
Definition fetchCredits_request (t : Throttler) (r : reply)
  : list creditResponse * Throttler :=
  let operations := (map_to_list (credits t)).*1 in
  fetchCreditsHelper t operations r.

(** [fetchCredits], second half (under the write lock):
    [for _, credit := range newCredits { t.credits[credit.Operation] += credit.Credits }]. *)
Definition add_credit (c : gmap string float) (credit : creditResponse)
  : gmap string float :=
  <[ Operation credit := balance c (Operation credit) + Credits credit ]> c.

Definition fetchCredits_apply (t : Throttler) (newCredits : list creditResponse)
  : Throttler :=
  set_credits t (foldl add_credit (credits t) newCredits).

Definition fetchCredits (t : Throttler) (r : reply) : Throttler :=
  let '(newCredits, t) := fetchCredits_request t r in
  fetchCredits_apply t newCredits.

(** The credits of one operation among those returned, added in turn. *)
Fixpoint add_returned (b : float) (op : string) (l : list creditResponse) : float :=
  match l with
  | [] => b
  | cr :: l' =>
      add_returned (if String.eqb (Operation cr) op then b + Credits cr else b) op l'
  end.

(** What can happen to a throttler: calls of the application and ticks of
    [pollManager]. *)
Inductive call : Type :=
| CallIsThrottled (operation : string) (r : reply)
| Tick (r : reply)
| CallSetUUID (u : string).

Definition step (t : Throttler) (c : call) : Throttler :=
  match c with
  | CallIsThrottled op r => (IsThrottled t op r).2
  | Tick r => fetchCredits t r
  | CallSetUUID u => SetUUID t u
  end.

Definition run (t : Throttler) (cs : list call) : Throttler := foldl step t cs.




End Throttler.

(** The same throttler under other options. *)
Definition with_options {O O' : Type} (t : Throttler O) (o' : O') : Throttler O' :=
  mkThrottler O' o' (service O t) (uuid O t) (credits O t) (logged O t) (sent O t).

Arguments mkThrottler {options}.
Arguments opts {options}.
Arguments service {options}.
Arguments uuid {options}.
Arguments credits {options}.
Arguments logged {options}.
Arguments sent {options}.
Arguments set_credits {options}.
Arguments log_error {options}.
Arguments send {options}.
Arguments FetchCredits {options}.
Arguments NewThrottler {options}.
Arguments SetUUID {options}.
Arguments fetchCreditsHelper {options}.
Arguments isThrottled {options}.
Arguments IsThrottled {options}.
Arguments fetchCredits_request {options}.
Arguments fetchCredits_apply {options}.
Arguments fetchCredits {options}.
Arguments step {options}.
Arguments run {options}.

End Remote.

(* ===================================================================== *)
(** * Specification-level descriptions of the textual forms              *)
(* ===================================================================== *)

(** Lowercase hexadecimal digits, and the number a string of them denotes. *)
Definition is_lower_hex (c : ascii) : bool :=
  let v := byte_val c in
  ((48 <=? v) && (v <=? 57)) || ((97 <=? v) && (v <=? 102)).

Fixpoint all_bytes (p : ascii -> bool) (s : string) : bool :=
  match s with
  | "" => true
  | String c s' => p c && all_bytes p s'
  end.

Definition lower_hex_digit (c : ascii) : Z :=
  let v := byte_val c in if v <=? 57 then v - 48 else v - 97 + 10.

Fixpoint hex_value_from (n : Z) (s : string) : Z :=
  match s with
  | "" => n
  | String c s' => hex_value_from (16 * n + lower_hex_digit c) s'
  end.

(** [s] is the lowercase hexadecimal numeral of [u] without padding: digits
    only, denoting [u], and no leading zero except for ["0"] itself. *)
Definition lower_hex_numeral (u : Z) (s : string) : Prop :=
  all_bytes is_lower_hex s = true /\ hex_value_from 0 s = u /\
  s <> "" /\ (forall s', s = String "0"%char s' -> s' = "").

(** [s] is [u] in lowercase hexadecimal, padded with zeros to 16 bytes. *)
Definition lower_hex_padded16 (u : Z) (s : string) : Prop :=
  String.length s = 16%nat /\ all_bytes is_lower_hex s = true /\ hex_value_from 0 s = u.

(** Hexadecimal digits of either case, and decimal digits. *)
Definition is_hex_byte (c : ascii) : bool :=
  let v := byte_val c in
  ((48 <=? v) && (v <=? 57)) || ((97 <=? v) && (v <=? 102)) || ((65 <=? v) && (v <=? 70)).

Definition is_dec_byte (c : ascii) : bool :=
  let v := byte_val c in (48 <=? v) && (v <=? 57).

(** The number that a string of hexadecimal digits of either case denotes. *)
Definition hex_digit_val (c : ascii) : Z :=
  let v := byte_val c in
  if v <=? 57 then v - 48 else if v <=? 70 then v - 65 + 10 else v - 97 + 10.

Fixpoint hex_val_from (n : Z) (s : string) : Z :=
  match s with
  | "" => n
  | String c s' => hex_val_from (16 * n + hex_digit_val c) s'
  end.

Definition hex_val (s : string) : Z := hex_val_from 0 s.

(** A part that is a hexadecimal number of 1 to [bound] digits. *)
Definition hex_part (bound : nat) (s : string) : bool :=
  (1 <=? String.length s)%nat && (String.length s <=? bound)%nat && all_bytes is_hex_byte s.

Fixpoint dec_value_from (n : Z) (s : string) : Z :=
  match s with
  | "" => n
  | String c s' => dec_value_from (10 * n + (byte_val c - 48)) s'
  end.

(** A part that is a decimal number fitting 8 bits (leading zeros allowed). *)
Definition dec8_part (s : string) : bool :=
  (1 <=? String.length s)%nat && all_bytes is_dec_byte s && (dec_value_from 0 s <=? 255).

Definition no_colon (s : string) : bool :=
  all_bytes (fun c => negb (Ascii.eqb c ":"%char)) s.

(** [value] is [p0:p1:p2:p3], the colons being exactly those three. *)
Definition four_parts (value p0 p1 p2 p3 : string) : Prop :=
  value = p0 +:+ ":" +:+ p1 +:+ ":" +:+ p2 +:+ ":" +:+ p3 /\
  no_colon p0 = true /\ no_colon p1 = true /\ no_colon p2 = true /\ no_colon p3 = true.

(** The tracer state strings that [ContextFromString] is meant to accept,
    and the ways of not being one. *)
Definition well_formed (value : string) : Prop :=
  exists p0 p1 p2 p3,
    four_parts value p0 p1 p2 p3 /\
    hex_part 32 p0 = true /\ hex_part 16 p1 = true /\ hex_part 16 p2 = true /\
    dec8_part p3 = true.

Definition malformed (value : string) : Prop :=
  value = "" \/
  (forall p0 p1 p2 p3, ~ four_parts value p0 p1 p2 p3) \/
  (exists p0 p1 p2 p3,
     four_parts value p0 p1 p2 p3 /\
     (hex_part 32 p0 = false \/ hex_part 16 p1 = false \/ hex_part 16 p2 = false \/
      dec8_part p3 = false)).

(** An entry whose value the closure cannot parse. *)
Definition bad_header (kv : string * string) : Prop :=
  (ToLower kv.1 = "x-b3-traceid" /\ hex_part 32 kv.2 = false) \/
  ((ToLower kv.1 = "x-b3-spanid" \/ ToLower kv.1 = "x-b3-parentspanid") /\
   (kv.2 = "" \/ all_bytes is_hex_byte kv.2 = false)).

(* ===================================================================== *)
(** * Strings                                                            *)
(* ===================================================================== *)

Section StringFacts.

Lemma eqb_empty_false (s : string) : s <> "" -> String.eqb s "" = false.
Proof. intros Hs. now apply String.eqb_neq. Qed.

Lemma append_cons (x : ascii) (a b : string) :
  String x a +:+ b = String x (a +:+ b).
Proof. reflexivity. Qed.

Lemma append_nil_l (b : string) : "" +:+ b = b.
Proof. reflexivity. Qed.

Lemma length_append (a b : string) :
  String.length (a +:+ b) = (String.length a + String.length b)%nat.
Proof. induction a as [|c a IH]; simpl; [reflexivity | now rewrite IH]. Qed.

Lemma length_repeat_byte (c : ascii) (n : nat) : String.length (repeat_byte c n) = n.
Proof. induction n as [|n IH]; simpl; [reflexivity | now rewrite IH]. Qed.

Lemma slice_to_append (a b : string) : slice_to (String.length a) (a +:+ b) = a.
Proof. induction a as [|c a IH]; simpl; [now destruct b | now rewrite IH]. Qed.

Lemma slice_from_append (a b : string) : slice_from (String.length a) (a +:+ b) = b.
Proof. induction a as [|c a IH]; simpl; [reflexivity | exact IH]. Qed.

Lemma all_bytes_append (p : ascii -> bool) (a b : string) :
  all_bytes p (a +:+ b) = all_bytes p a && all_bytes p b.
Proof.
  induction a as [|c a IH]; simpl; [reflexivity|].
  rewrite IH. now rewrite andb_assoc.
Qed.

Lemma append_assoc (a b c : string) : (a +:+ b) +:+ c = a +:+ (b +:+ c).
Proof.
  induction a as [|x a IH]; [reflexivity|].
  rewrite !append_cons. now rewrite IH.
Qed.

End StringFacts.

(* ===================================================================== *)
(** * Hexadecimal: formatting and parsing                                *)
(* ===================================================================== *)

Section Hex.

Lemma digit_cases (d : Z) :
  0 <= d < 16 ->
  d = 0 \/ d = 1 \/ d = 2 \/ d = 3 \/ d = 4 \/ d = 5 \/ d = 6 \/ d = 7 \/
  d = 8 \/ d = 9 \/ d = 10 \/ d = 11 \/ d = 12 \/ d = 13 \/ d = 14 \/ d = 15.
Proof. lia. Qed.

Ltac each_digit d H :=
  destruct (digit_cases d H) as
    [->|[->|[->|[->|[->|[->|[->|[->|[->|[->|[->|[->|[->|[->|[->| ->]]]]]]]]]]]]]]].

(** Reading back a digit that was written. *)
Lemma digit_of_digit_byte (d : Z) :
  0 <= d < 16 -> digit_of_byte (byte_val (digit_byte d)) = Some d.
Proof. intros H. each_digit d H; reflexivity. Qed.

Lemma digit_byte_lower_hex (d : Z) :
  0 <= d < 16 ->
  is_lower_hex (digit_byte d) = true /\ lower_hex_digit (digit_byte d) = d.
Proof. intros H. each_digit d H; split; reflexivity. Qed.

Lemma digit_byte_zero (d : Z) : 0 <= d < 16 -> digit_byte d = "0"%char -> d = 0.
Proof. intros H. each_digit d H; intros E; try reflexivity; discriminate E. Qed.

Lemma land15 (u : Z) : 0 <= u -> Z.land u 15 = u mod 16.
Proof. intros _. change 15 with (Z.ones 4). now rewrite Z.land_ones by lia. Qed.

Lemma shiftr4 (u : Z) : Z.shiftr u 4 = u / 16.
Proof. now rewrite Z.shiftr_div_pow2 by lia. Qed.

(** The digits written by [hex_loop] are read back by [parse_loop] as the
    number they were written from. *)
Lemma parse_hex_loop (fn s0 : string) (fuel : nat) :
  forall (u : Z) (buf : string),
    0 <= u < 2 ^ 64 -> u < 16 ^ Z.of_nat fuel ->
    parse_loop fn s0 16 maxUint64 (cutoff 16) 0 (hex_loop fuel u buf) =
    parse_loop fn s0 16 maxUint64 (cutoff 16) u buf.
Proof.
  induction fuel as [|fuel IH]; intros u buf Hu Hf.
  - simpl in *. assert (u = 0) by lia. now subst.
  - cbn [hex_loop]. destruct (16 <=? u) eqn:E.
    + apply Z.leb_le in E.
      rewrite IH.
      2:{ rewrite shiftr4. split; [apply Z.div_pos; lia|].
          apply Z.div_lt_upper_bound; lia. }
      2:{ rewrite shiftr4. apply Z.div_lt_upper_bound; [lia|].
          rewrite Nat2Z.inj_succ, Z.pow_succ_r in Hf by lia. lia. }
      cbn [parse_loop]. rewrite land15, shiftr4 by lia.
      rewrite digit_of_digit_byte by (apply Z.mod_pos_bound; lia).
      assert (Hm := Z.mod_pos_bound u 16 ltac:(lia)).
      assert (Hd : u = 16 * (u / 16) + u mod 16) by (apply Z.div_mod; lia).
      assert (Hq : 0 <= u / 16 < 2 ^ 60).
      { split; [apply Z.div_pos; lia|]. apply Z.div_lt_upper_bound; lia. }
      replace (16 <=? u mod 16) with false by (symmetry; apply Z.leb_gt; lia).
      replace ((cutoff 16) <=? u / 16) with false
        by (symmetry; apply Z.leb_gt; change (cutoff 16) with (2 ^ 60); lia).
      unfold wrap64.
      rewrite (Z.mod_small (u / 16 * 16)) by lia.
      rewrite (Z.mod_small (u / 16 * 16 + u mod 16)) by lia.
      replace (u / 16 * 16 + u mod 16) with u by lia.
      replace (u <? u / 16 * 16) with false by (symmetry; apply Z.ltb_ge; lia).
      replace (maxUint64 <? u) with false
        by (symmetry; apply Z.ltb_ge; unfold maxUint64; lia).
      reflexivity.
    + apply Z.leb_gt in E.
      cbn [parse_loop]. rewrite digit_of_digit_byte by lia.
      replace (16 <=? u) with false by (symmetry; apply Z.leb_gt; lia).
      replace ((cutoff 16) <=? 0) with false by reflexivity.
      unfold wrap64. rewrite Z.mul_0_l, Z.add_0_l.
      rewrite (Z.mod_small 0) by lia. rewrite Z.mod_small by lia.
      replace (u <? 0) with false by (symmetry; apply Z.ltb_ge; lia).
      replace (maxUint64 <? u) with false
        by (symmetry; apply Z.ltb_ge; unfold maxUint64; lia).
      reflexivity.
Qed.

Lemma ParseUint_16_64 (s : string) :
  s <> "" ->
  ParseUint s 16 64 = parse_loop "ParseUint" s 16 maxUint64 (cutoff 16) 0 s.
Proof. intros Hs. unfold ParseUint. now rewrite eqb_empty_false. Qed.

Lemma hex_loop_buf (fuel : nat) :
  forall (u : Z) (buf : string), hex_loop fuel u buf = hex_loop fuel u "" +:+ buf.
Proof.
  induction fuel as [|fuel IH]; intros u buf; [reflexivity|].
  cbn [hex_loop]. destruct (16 <=? u); [|reflexivity].
  rewrite IH, (IH _ (String _ "")), append_assoc. reflexivity.
Qed.

Lemma hex_loop_length (fuel : nat) :
  forall (u : Z) (buf : string),
    (String.length (hex_loop fuel u buf) <= fuel + String.length buf)%nat /\
    (fuel <> O -> 1 + String.length buf <= String.length (hex_loop fuel u buf))%nat.
Proof.
  induction fuel as [|fuel IH]; intros u buf; [simpl; lia|].
  cbn [hex_loop]. destruct (16 <=? u).
  - destruct (IH (Z.shiftr u 4) (String (digit_byte (Z.land u 15)) buf)) as [H1 H2].
    cbn [String.length] in *. split; [lia|]. intros _.
    destruct fuel; [simpl; lia | lia].
  - cbn [String.length]. lia.
Qed.

Lemma FormatUint16_length (u : Z) :
  (1 <= String.length (FormatUint16 u) <= 16)%nat.
Proof.
  destruct (hex_loop_length 16 u "") as [H1 H2]. unfold FormatUint16.
  specialize (H2 ltac:(discriminate)).
  change (String.length "") with O in H1, H2. lia.
Qed.

Lemma FormatUint16_nonempty (u : Z) : FormatUint16 u <> "".
Proof.
  intros E. pose proof (FormatUint16_length u) as H. rewrite E in H.
  change (String.length "") with O in H. lia.
Qed.

Lemma Sprintf_016x_length (u : Z) : String.length (Sprintf_016x u) = 16%nat.
Proof.
  unfold Sprintf_016x. rewrite length_append, length_repeat_byte.
  pose proof (FormatUint16_length u). lia.
Qed.

Lemma hex_loop_all_hex (fuel : nat) :
  forall (u : Z) (buf : string),
    0 <= u -> u < 16 ^ Z.of_nat fuel ->
    all_bytes is_lower_hex (hex_loop fuel u buf) = all_bytes is_lower_hex buf.
Proof.
  induction fuel as [|fuel IH]; intros u buf Hu Hf; [reflexivity|].
  cbn [hex_loop]. destruct (16 <=? u) eqn:E.
  - apply Z.leb_le in E. rewrite IH.
    + cbn [all_bytes]. rewrite land15 by lia.
      now rewrite (proj1 (digit_byte_lower_hex _ (Z.mod_pos_bound u 16 ltac:(lia)))).
    + rewrite shiftr4. apply Z.div_pos; lia.
    + rewrite shiftr4. apply Z.div_lt_upper_bound; [lia|].
      rewrite Nat2Z.inj_succ, Z.pow_succ_r in Hf by lia. lia.
  - apply Z.leb_gt in E. cbn [all_bytes].
    now rewrite (proj1 (digit_byte_lower_hex u ltac:(lia))).
Qed.

Lemma hex_loop_value (fuel : nat) :
  forall (u : Z) (buf : string),
    0 <= u -> u < 16 ^ Z.of_nat fuel ->
    hex_value_from 0 (hex_loop fuel u buf) = hex_value_from u buf.
Proof.
  induction fuel as [|fuel IH]; intros u buf Hu Hf.
  - simpl in *. assert (u = 0) by lia. now subst.
  - cbn [hex_loop]. destruct (16 <=? u) eqn:E.
    + apply Z.leb_le in E. rewrite IH.
      * cbn [hex_value_from]. rewrite land15, shiftr4 by lia.
        rewrite (proj2 (digit_byte_lower_hex _ (Z.mod_pos_bound u 16 ltac:(lia)))).
        now rewrite <- Z.div_mod by lia.
      * rewrite shiftr4. apply Z.div_pos; lia.
      * rewrite shiftr4. apply Z.div_lt_upper_bound; [lia|].
        rewrite Nat2Z.inj_succ, Z.pow_succ_r in Hf by lia. lia.
    + apply Z.leb_gt in E. cbn [hex_value_from].
      rewrite (proj2 (digit_byte_lower_hex u ltac:(lia))). f_equal; lia.
Qed.

(** The first digit written for a positive number is not zero. *)
Lemma hex_loop_head (fuel : nat) :
  forall (u : Z) (buf : string),
    0 < u -> u < 16 ^ Z.of_nat fuel ->
    exists d rest, hex_loop fuel u buf = String (digit_byte d) rest /\ 1 <= d < 16.
Proof.
  induction fuel as [|fuel IH]; intros u buf Hu Hf; [simpl in Hf; lia|].
  cbn [hex_loop]. destruct (16 <=? u) eqn:E.
  - apply Z.leb_le in E. apply IH.
    + rewrite shiftr4. apply Z.div_str_pos. lia.
    + rewrite shiftr4. apply Z.div_lt_upper_bound; [lia|].
      rewrite Nat2Z.inj_succ, Z.pow_succ_r in Hf by lia. lia.
  - apply Z.leb_gt in E. exists u, buf. split; [reflexivity | lia].
Qed.

Lemma uint64_lt_pow16 (u : Z) : u < 2 ^ 64 -> u < 16 ^ Z.of_nat 16.
Proof. change (16 ^ Z.of_nat 16) with (2 ^ 64). lia. Qed.

(** [FormatUint16] writes the lowercase hexadecimal numeral of its argument. *)
Lemma FormatUint16_numeral (u : Z) :
  uint64_range u -> lower_hex_numeral u (FormatUint16 u).
Proof.
  intros [H0 H1]. unfold lower_hex_numeral, FormatUint16.
  rewrite hex_loop_all_hex, hex_loop_value by auto using uint64_lt_pow16.
  repeat split; [apply FormatUint16_nonempty|].
  intros s' E.
  destruct (Z.eq_dec u 0) as [->|Hne]; [now inversion E|].
  destruct (hex_loop_head 16 u "" ltac:(lia) (uint64_lt_pow16 u H1))
    as (d & rest & Hd & Hr).
  rewrite Hd in E. injection E as E _.
  apply digit_byte_zero in E; lia.
Qed.

Lemma hex_value_zeros (k : nat) (s : string) :
  hex_value_from 0 (repeat_byte "0"%char k +:+ s) = hex_value_from 0 s.
Proof. induction k as [|k IH]; [reflexivity | exact IH]. Qed.

Lemma all_hex_zeros (k : nat) (s : string) :
  all_bytes is_lower_hex (repeat_byte "0"%char k +:+ s) = all_bytes is_lower_hex s.
Proof. induction k as [|k IH]; [reflexivity | exact IH]. Qed.

Lemma Sprintf_016x_padded (u : Z) :
  uint64_range u -> lower_hex_padded16 u (Sprintf_016x u).
Proof.
  intros Hu. destruct (FormatUint16_numeral u Hu) as (Ha & Hv & _).
  split; [apply Sprintf_016x_length|].
  unfold Sprintf_016x. now rewrite all_hex_zeros, hex_value_zeros.
Qed.

Lemma parse_zeros (fn s0 : string) (k : nat) (s : string) :
  parse_loop fn s0 16 maxUint64 (cutoff 16) 0 (repeat_byte "0"%char k +:+ s) =
  parse_loop fn s0 16 maxUint64 (cutoff 16) 0 s.
Proof. induction k as [|k IH]; [reflexivity | exact IH]. Qed.

(** [ParseUint] reads back what [FormatUint16] wrote. *)
Lemma ParseUint_FormatUint16 (u : Z) :
  uint64_range u -> ParseUint (FormatUint16 u) 16 64 = (u, None).
Proof.
  intros [H0 H1]. rewrite ParseUint_16_64 by apply FormatUint16_nonempty.
  unfold FormatUint16 at 2. rewrite parse_hex_loop by auto using uint64_lt_pow16.
  reflexivity.
Qed.

Lemma ParseUint_Sprintf_016x (u : Z) :
  uint64_range u -> ParseUint (Sprintf_016x u) 16 64 = (u, None).
Proof.
  intros [H0 H1]. rewrite ParseUint_16_64.
  2:{ intros E. pose proof (Sprintf_016x_length u) as H. now rewrite E in H. }
  unfold Sprintf_016x at 2. rewrite parse_zeros.
  unfold FormatUint16. rewrite parse_hex_loop by auto using uint64_lt_pow16.
  reflexivity.
Qed.

End Hex.

(* ===================================================================== *)
(** * Trace identifiers                                                  *)
(* ===================================================================== *)

Section TraceIDText.

Lemma TraceIDFromString_String (t : TraceID) :
  TraceID_wf t -> TraceIDFromString (TraceID_String t) = (t, None).
Proof.
  destruct t as [hi lo]. intros [Hhi Hlo]. cbn [High Low] in *.
  unfold TraceID_String, TraceIDFromString. cbn [High Low].
  destruct (hi =? 0) eqn:E.
  - apply Z.eqb_eq in E. subst hi.
    pose proof (FormatUint16_length lo) as Hlen.
    replace (32 <? String.length (FormatUint16 lo))%nat with false
      by (symmetry; apply Nat.ltb_ge; lia).
    replace (16 <? String.length (FormatUint16 lo))%nat with false
      by (symmetry; apply Nat.ltb_ge; lia).
    now rewrite ParseUint_FormatUint16.
  - pose proof (FormatUint16_length hi) as Hlen.
    pose proof (Sprintf_016x_length lo) as Hlen'.
    rewrite length_append, Hlen'.
    replace (32 <? String.length (FormatUint16 hi) + 16)%nat with false
      by (symmetry; apply Nat.ltb_ge; lia).
    replace (16 <? String.length (FormatUint16 hi) + 16)%nat with true
      by (symmetry; apply Nat.ltb_lt; lia).
    replace (String.length (FormatUint16 hi) + 16 - 16)%nat
      with (String.length (FormatUint16 hi)) by lia.
    rewrite slice_to_append, slice_from_append.
    now rewrite ParseUint_FormatUint16, ParseUint_Sprintf_016x.
Qed.

End TraceIDText.

(** C2. For every trace ID [t] (64-bit halves, zero included),
    [TraceIDFromString(t.String())] returns [t] and no error; the textual
    form is the lowercase hexadecimal numeral of [Low] when [High] is zero,
    and otherwise the numeral of [High] followed by [Low] in 16 zero-padded
    lowercase hexadecimal digits. *)
Theorem TraceID_roundtrip (t : TraceID) :
  TraceID_wf t ->
  TraceIDFromString (TraceID_String t) = (t, None) /\
  (High t = 0 -> lower_hex_numeral (Low t) (TraceID_String t)) /\
  (High t <> 0 ->
   exists hi lo, TraceID_String t = hi +:+ lo /\
                 lower_hex_numeral (High t) hi /\ lower_hex_padded16 (Low t) lo).
Proof.
  intros Hwf. split; [now apply TraceIDFromString_String|].
  destruct t as [hi lo]. destruct Hwf as [Hhi Hlo]. cbn [High Low] in *.
  unfold TraceID_String. cbn [High Low]. split.
  - intros ->. now apply FormatUint16_numeral.
  - intros Hne. apply Z.eqb_neq in Hne. rewrite Hne.
    exists (FormatUint16 hi), (Sprintf_016x lo).
    auto using FormatUint16_numeral, Sprintf_016x_padded.
Qed.

Lemma TraceID_roundtrip_witness :
  TraceIDFromString (TraceID_String (mkTraceID 1 2)) = (mkTraceID 1 2, None) /\
  TraceID_String (mkTraceID 1 2) = "10000000000000002".
Proof.
  split; [|reflexivity].
  apply (TraceID_roundtrip (mkTraceID 1 2)).
  unfold TraceID_wf, uint64_range. simpl. lia.
Defined.

(* ===================================================================== *)
(** * Sampling flags                                                     *)
(* ===================================================================== *)

Section Flags.

(** A retry loop applies its update to the value that the cell held when
    its compare-and-swap went through: nothing written by others in
    between is lost or half-applied. *)
Lemma cas_loop_atomic (f : Z -> Z) (env : list Z) :
  forall cur, exists old, In old (cur :: env) /\ Atomic.cas_loop f env cur = f old.
Proof.
  induction env as [|v env IH]; intros cur.
  - exists cur. split; [now left|]. simpl. unfold Atomic.CAS. now rewrite Z.eqb_refl.
  - cbn [Atomic.cas_loop]. unfold Atomic.CAS. destruct (v =? cur) eqn:E.
    + exists cur. split; [now left | reflexivity].
    + destruct (IH v) as (old & Hin & Heq). exists old. split; [now right | exact Heq].
Qed.

Lemma cas_loop_alone (f : Z -> Z) (cur : Z) : Atomic.cas_loop f [] cur = f cur.
Proof. simpl. unfold Atomic.CAS. now rewrite Z.eqb_refl. Qed.

(** Testing a one-bit mask reads that bit. *)
Lemma land_pow2_eqb (x k : Z) :
  0 <= k -> (Z.land x (2 ^ k) =? 2 ^ k) = Z.testbit x k.
Proof.
  intros Hk.
  assert (H : Z.land x (2 ^ k) = if Z.testbit x k then 2 ^ k else 0).
  { apply Z.bits_inj'. intros n Hn. rewrite Z.land_spec, Z.pow2_bits_eqb by lia.
    destruct (Z.eqb_spec k n) as [->|Hne].
    - destruct (Z.testbit x n); [now rewrite Z.pow2_bits_true | now rewrite Z.bits_0].
    - rewrite andb_false_r. destruct (Z.testbit x k); [|now rewrite Z.bits_0].
      rewrite Z.pow2_bits_false; [reflexivity | lia]. }
  rewrite H. destruct (Z.testbit x k); [apply Z.eqb_refl|].
  apply Z.eqb_neq. assert (0 < 2 ^ k) by (apply Z.pow_pos_nonneg; lia). lia.
Qed.

Lemma isSampled_bit (s : samplingState) : isSampled s = Z.testbit (_flags s) 0.
Proof. unfold isSampled. exact (land_pow2_eqb (_flags s) 0 ltac:(lia)). Qed.

Lemma isDebug_bit (s : samplingState) : isDebug s = Z.testbit (_flags s) 1.
Proof. unfold isDebug. exact (land_pow2_eqb (_flags s) 1 ltac:(lia)). Qed.

Lemma isFirehose_bit (s : samplingState) : isFirehose s = Z.testbit (_flags s) 3.
Proof. unfold isFirehose. exact (land_pow2_eqb (_flags s) 3 ltac:(lia)). Qed.

Lemma byte_range_land (x : Z) : 0 <= x < 256 <-> Z.land x 255 = x.
Proof.
  change 255 with (Z.ones 8). rewrite Z.land_ones by lia. change (2 ^ 8) with 256.
  split; [intros H; now apply Z.mod_small|].
  intros <-. apply Z.mod_pos_bound. lia.
Qed.

(** The flag words stay within the byte that [flags()] returns. *)
Lemma flag_updates_byte (x f : Z) :
  0 <= x < 256 -> 0 <= f < 256 ->
  0 <= Z.lor x f < 256 /\ 0 <= Z.ldiff x f < 256.
Proof.
  rewrite !byte_range_land. intros Hx Hf. split.
  - now rewrite Z.land_lor_distr_l, Hx, Hf.
  - apply Z.bits_inj'. intros n Hn.
    assert (Hb : Z.testbit x n = Z.testbit x n && Z.testbit 255 n)
      by now rewrite <- Z.land_spec, Hx.
    rewrite Z.land_spec, !Z.ldiff_spec.
    now destruct (Z.testbit x n), (Z.testbit 255 n), (Z.testbit f n).
Qed.

End Flags.

(** C9. For every sampling state and every mask [f], [setFlag(f)] sets exactly
    the bits of [f] and leaves every other bit as it was, [resetFlag(f)]
    clears exactly the bits of [f] and leaves every other bit as it was, and
    [resetSampled] keeps the debug and firehose bits.  Under interference the
    same holds relative to the value that the successful compare-and-swap
    replaced. *)
Theorem flag_updates_frame (s : samplingState) (f : Z) :
  (forall i, Z.testbit (_flags (setFlag s f)) i = Z.testbit (_flags s) i || Z.testbit f i) /\
  (forall i, Z.testbit (_flags (resetFlag s f)) i
             = Z.testbit (_flags s) i && negb (Z.testbit f i)) /\
  (isDebug (resetSampled s) = isDebug s /\
   isFirehose (resetSampled s) = isFirehose s /\
   isSampled (resetSampled s) = false) /\
  (forall env, exists old, In old (_flags s :: env) /\
     forall i, Z.testbit (_flags (setFlag_under env s f)) i
               = Z.testbit old i || Z.testbit f i) /\
  (forall env, exists old, In old (_flags s :: env) /\
     forall i, Z.testbit (_flags (resetFlag_under env s f)) i
               = Z.testbit old i && negb (Z.testbit f i)).
Proof.
  unfold resetSampled, setFlag, resetFlag, setFlag_under, resetFlag_under.
  repeat split.
  - intros i. cbn [_flags]. rewrite cas_loop_alone. apply Z.lor_spec.
  - intros i. cbn [_flags]. rewrite cas_loop_alone. apply Z.ldiff_spec.
  - rewrite !isDebug_bit. cbn [_flags]. rewrite cas_loop_alone, Z.ldiff_spec.
    change (Z.testbit flagSampled 1) with false. apply andb_true_r.
  - rewrite !isFirehose_bit. cbn [_flags]. rewrite cas_loop_alone, Z.ldiff_spec.
    change (Z.testbit flagSampled 3) with false. apply andb_true_r.
  - rewrite isSampled_bit. cbn [_flags]. rewrite cas_loop_alone, Z.ldiff_spec.
    change (Z.testbit flagSampled 0) with true. apply andb_false_r.
  - intros env. cbn [_flags].
    destruct (cas_loop_atomic (fun old => Z.lor old f) env (_flags s)) as (old & Hin & ->).
    exists old. split; [exact Hin|]. intros i. apply Z.lor_spec.
  - intros env. cbn [_flags].
    destruct (cas_loop_atomic (fun old => Z.ldiff old f) env (_flags s)) as (old & Hin & ->).
    exists old. split; [exact Hin|]. intros i. apply Z.ldiff_spec.
Qed.

(* ===================================================================== *)
(** * Baggage                                                            *)
(* ===================================================================== *)

Section Baggage.

(** Copying a map entry by entry into an empty map gives the same map. *)
Lemma copy_loop_id (m : gmap string string) :
  map_fold (fun k v (nb : gmap string string) => <[ k := v ]> nb) ∅ m = m.
Proof.
  apply (map_fold_weak_ind (fun r m => r = m)); [reflexivity|].
  intros i x m' r _ ->. reflexivity.
Qed.

Lemma new_map_spec (h : Heap) (m : gmap string string) :
  (fst (new_map h m) ∉ dom (maps h)) /\
  maps (snd (new_map h m)) !! fst (new_map h m) = Some m /\
  states (snd (new_map h m)) = states h /\
  (forall l', l' ∈ dom (maps h) -> maps (snd (new_map h m)) !! l' = maps h !! l').
Proof.
  unfold new_map. cbn [maps states fst snd].
  pose proof (is_fresh (dom (maps h))) as Hfresh.
  split; [exact Hfresh|]. split; [apply lookup_insert_eq|]. split; [reflexivity|].
  intros l' Hl'. apply lookup_insert_ne. intros E. rewrite <- E in Hl'. contradiction.
Qed.

End Baggage.

(** C8. [WithBaggageItem(k, v)] returns a new context whose baggage is the
    baggage of [c] extended with [k] mapped to [v]; trace, span and parent
    identifiers and the sampling-state reference are those of [c]; the debug ID
    is empty whatever [c] carried; the map that [c] refers to is left as it
    was, and so is every other object. *)
Theorem WithBaggageItem_frame (h : Heap) (c : SpanContext) (k v : string) :
  (forall l, baggage c = Some l -> l ∈ dom (maps h)) ->
  let '(c', h') := WithBaggageItem h c k v in
  baggage_items h' c' = <[ k := v ]> (baggage_items h c) /\
  traceID c' = traceID c /\ spanID c' = spanID c /\ parentID c' = parentID c /\
  samplingState_ptr c' = samplingState_ptr c /\
  debugID c' = "" /\
  baggage_items h' c = baggage_items h c /\
  baggage c' <> baggage c /\
  states h' = states h /\
  (forall l, l ∈ dom (maps h) -> maps h' !! l = maps h !! l).
Proof.
  intros Hwf. unfold WithBaggageItem.
  set (nb := match baggage c with
             | Some _ => _
             | None => _
             end).
  pose proof (new_map_spec h nb) as Hnew.
  destruct (new_map h nb) as [l h'] eqn:Hnm.
  cbn [fst snd] in Hnew. destruct Hnew as (Hfresh & Hl & Hst & Hframe).
  assert (Hnb : nb = <[ k := v ]> (baggage_items h c)).
  { subst nb. unfold baggage_items. destruct (baggage c) as [lb|].
    - now rewrite copy_loop_id.
    - now rewrite insert_empty. }
  repeat split; try reflexivity; try assumption.
  - unfold baggage_items at 1. cbn [baggage]. now rewrite Hl.
  - unfold baggage_items. destruct (baggage c) as [lb|] eqn:Hb; [|reflexivity].
    now rewrite Hframe by auto.
  - cbn [baggage]. intros E. symmetry in E. apply Hwf in E. contradiction.
Qed.

Lemma WithBaggageItem_frame_witness :
  let h := mkHeap ∅ {[ 1%positive := {[ "a" := "1" ]} ]} in
  let c := mkSpanContext (mkTraceID 0 7) 8 9 (Some 1%positive) "dbg" None in
  debugID (WithBaggageItem h c "b" "2").1 = "" /\
  baggage_items (WithBaggageItem h c "b" "2").2 c = {[ "a" := "1" ]}.
Proof.
  intros h c.
  assert (Hwf : forall l, baggage c = Some l -> l ∈ dom (maps h)).
  { intros l [= <-]. subst h. cbn [maps]. rewrite dom_singleton_L. set_solver. }
  pose proof (WithBaggageItem_frame h c "b" "2" Hwf) as H.
  destruct (WithBaggageItem h c "b" "2") as [c' h']. cbn [fst snd].
  destruct H as (_ & _ & _ & _ & _ & Hd & Hb & _).
  split; [exact Hd|]. rewrite Hb. reflexivity.
Defined.

(* ===================================================================== *)
(** * The throttler                                                      *)
(* ===================================================================== *)

Section Float64.

Local Open Scope float_scope.

Lemma not_nan_Prim2SF (c : float) : is_nan c = false -> Prim2SF c <> S754_nan.
Proof.
  unfold is_nan. rewrite FloatAxioms.eqb_spec. intros H E. rewrite E in H. discriminate H.
Qed.

(** On numbers, "not below one" and "at least one" are the same test. *)
Lemma ltb_one_leb (c : float) : is_nan c = false -> (c <? 1) = negb (1 <=? c).
Proof.
  intros Hc. apply not_nan_Prim2SF in Hc. rewrite FloatAxioms.ltb_spec, FloatAxioms.leb_spec.
  change (Prim2SF 1) with (S754_finite false 4503599627370496 (-52)).
  destruct (Prim2SF c) as [s|s| |s m e]; try (now destruct s); [contradiction|].
  destruct s; [reflexivity|].
  unfold SFltb, SFleb, SFcompare.
  rewrite (Z.compare_antisym e (-52)).
  pose proof (Pos.compare_cont_antisym m 4503599627370496 Eq) as Ha.
  cbn [CompOpp] in Ha. rewrite <- Ha.
  destruct (e ?= -52)%Z; cbn [CompOpp]; try reflexivity.
  now destruct (Pos.compare_cont Eq m 4503599627370496).
Qed.

Lemma finite_below_infinity (cap : float) :
  is_finite cap = true -> (infinity <=? cap) = false.
Proof.
  unfold is_finite, is_nan, is_infinity.
  rewrite FloatAxioms.leb_spec, !FloatAxioms.eqb_spec, FloatAxioms.abs_spec.
  change (Prim2SF infinity) with (S754_infinity false).
  destruct (Prim2SF cap) as [s|s| |s m e]; try reflexivity.
  intros H. destruct s; discriminate H.
Qed.












End Float64.

Section ThrottlerFacts.

Import Remote.
Context {options : Type}.
Implicit Types (t : Throttler options) (r : reply) (c : gmap string float).
Local Open Scope float_scope.

Lemma fetchCreditsHelper_no_uuid t (ops : list string) r :
  uuid t = "" -> fetchCreditsHelper t ops r = ([], log_error t uuid_not_set).
Proof. intros H. unfold fetchCreditsHelper. now rewrite H. Qed.

Lemma fetchCreditsHelper_with_uuid t (ops : list string) r :
  uuid t <> "" ->
  fetchCreditsHelper t ops r = FetchCredits t (uuid t) (service t) ops r.
Proof. intros H. unfold fetchCreditsHelper. now rewrite eqb_empty_false. Qed.

(** What the helper leaves alone, and what it returns. *)
Lemma fetchCreditsHelper_frame t (ops : list string) r :
  credits (fetchCreditsHelper t ops r).2 = credits t /\
  uuid (fetchCreditsHelper t ops r).2 = uuid t /\
  service (fetchCreditsHelper t ops r).2 = service t /\
  opts (fetchCreditsHelper t ops r).2 = opts t /\
  (uuid t <> "" ->
   sent (fetchCreditsHelper t ops r).2 = (sent t ++ [mkRequest (uuid t) (service t) ops])%list /\
   (fetchCreditsHelper t ops r).1 = decoded r) /\
  (uuid t = "" ->
   sent (fetchCreditsHelper t ops r).2 = sent t /\
   logged (fetchCreditsHelper t ops r).2 = (logged t ++ [uuid_not_set])%list /\
   (fetchCreditsHelper t ops r).1 = []).
Proof.
  destruct (String.eqb_spec (uuid t) "") as [E|E].
  - rewrite (fetchCreditsHelper_no_uuid t ops r E). cbn. repeat split; try easy.
  - rewrite (fetchCreditsHelper_with_uuid t ops r E). unfold FetchCredits.
    destruct (failure r); cbn; repeat split; try easy.
Qed.

Lemma isThrottled_spec t (operation : string) (x : float) :
  credits t !! operation = Some x -> is_nan x = false ->
  isThrottled t operation =
  if 1 <=? x then (false, set_credits t (<[ operation := x - 1 ]> (credits t)))
  else (true, t).
Proof.
  intros Hx Hn. unfold isThrottled, balance, minimumCredits. rewrite Hx.
  cbn [default from_option id].
  rewrite (ltb_one_leb x Hn). now destruct (1 <=? x).
Qed.

Lemma lookup_add_credit c (cr : creditResponse) (op : string) :
  add_credit c cr !! op =
  if String.eqb (Operation cr) op then Some (balance c op + Credits cr) else c !! op.
Proof.
  unfold add_credit. destruct (String.eqb_spec (Operation cr) op) as [->|Hne].
  - apply lookup_insert_eq.
  - now apply lookup_insert_ne.
Qed.

Lemma balance_foldl_add_credit (l : list creditResponse) :
  forall c (op : string),
    balance (foldl add_credit c l) op = add_returned (balance c op) op l.
Proof.
  induction l as [|cr l IH]; intros c op; [reflexivity|].
  cbn [foldl add_returned]. rewrite IH. f_equal.
  unfold balance at 1. rewrite lookup_add_credit.
  now destruct (String.eqb (Operation cr) op).
Qed.

Lemma lookup_foldl_add_credit_other (l : list creditResponse) :
  forall c (op : string),
    op ∉ Operation <$> l -> foldl add_credit c l !! op = c !! op.
Proof.
  induction l as [|cr l IH]; intros c op Hop; [reflexivity|].
  cbn [foldl]. rewrite fmap_cons, not_elem_of_cons in Hop. destruct Hop as [Hne Hop].
  rewrite IH by assumption. rewrite lookup_add_credit.
  destruct (String.eqb_spec (Operation cr) op); [congruence | reflexivity].
Qed.

Lemma lookup_foldl_add_credit_some (l : list creditResponse) :
  forall c (op : string),
    op ∈ Operation <$> l -> is_Some (foldl add_credit c l !! op).
Proof.
  induction l as [|cr l IH]; intros c op Hop; [now apply elem_of_nil in Hop|].
  cbn [foldl]. destruct (decide (op ∈ Operation <$> l)) as [Hin|Hnin]; [now apply IH|].
  rewrite lookup_foldl_add_credit_other by assumption.
  rewrite fmap_cons, elem_of_cons in Hop. destruct Hop as [->|Hop]; [|contradiction].
  rewrite lookup_add_credit, String.eqb_refl. eauto.
Qed.









(** C10. When the operation is absent from the credits map and the fetch
    returns an empty list, [IsThrottled] returns [true] and leaves the credits
    map as it was, the operation still absent; the next call for the same
    operation fetches again. *)
Theorem IsThrottled_failed_fetch_retries t (operation : string) r :
  credits t !! operation = None ->
  (fetchCreditsHelper t [operation] r).1 = [] ->
  (IsThrottled t operation r).1 = true /\
  credits (IsThrottled t operation r).2 = credits t /\
  credits (IsThrottled t operation r).2 !! operation = None /\
  forall r',
    let t' := (IsThrottled t operation r).2 in
    (uuid t <> "" ->
     sent (IsThrottled t' operation r').2
     = (sent t' ++ [mkRequest (uuid t) (service t) [operation]])%list) /\
    (uuid t = "" ->
     logged (IsThrottled t' operation r').2 = (logged t' ++ [uuid_not_set])%list) /\
    IsThrottled t' operation r'
    = match fetchCreditsHelper t' [operation] r' with
      | ([], t1) => (true, t1)
      | (c0 :: _, t1) =>
          isThrottled (set_credits t1 (<[ operation := Credits c0 ]> (credits t1))) operation
      end.
Proof.
  intros Hnone Hempty.
  assert (Hret : IsThrottled t operation r = (true, (fetchCreditsHelper t [operation] r).2)).
  { unfold IsThrottled. rewrite Hnone.
    destruct (fetchCreditsHelper t [operation] r) as [cs t1]. cbn [fst snd] in *.
    now subst cs. }
  pose proof (fetchCreditsHelper_frame t [operation] r) as (Hc & Hu & Hs & _).
  rewrite Hret. cbn [fst snd]. rewrite Hc.
  split; [reflexivity|]. split; [reflexivity|]. split; [exact Hnone|].
  intros r'. cbn zeta. set (t' := (fetchCreditsHelper t [operation] r).2) in *.
  assert (Hnone' : credits t' !! operation = None) by now rewrite Hc.
  assert (Hstep : IsThrottled t' operation r'
                  = match fetchCreditsHelper t' [operation] r' with
                    | ([], t1) => (true, t1)
                    | (c0 :: _, t1) =>
                        isThrottled (set_credits t1 (<[ operation := Credits c0 ]> (credits t1)))
                                    operation
                    end).
  { unfold IsThrottled. rewrite Hnone'.
    now destruct (fetchCreditsHelper t' [operation] r') as [[|c0 cs] t1]. }
  pose proof (fetchCreditsHelper_frame t' [operation] r')
    as (Hc' & Hu' & Hs' & _ & Hset & Hunset).
  rewrite Hu in Hset, Hunset. rewrite Hs in Hset.
  split; [|split; [|exact Hstep]].
  - intros Hne. destruct (Hset Hne) as [Hsent Hdec]. rewrite Hstep.
    destruct (fetchCreditsHelper t' [operation] r') as [[|c0 cs] t1];
      cbn [fst snd] in *; [exact Hsent|].
    unfold isThrottled. destruct (_ <? _); cbn [snd sent set_credits]; exact Hsent.
  - intros He. destruct (Hunset He) as (_ & Hlog & Hnil). rewrite Hstep.
    destruct (fetchCreditsHelper t' [operation] r') as [[|c0 cs] t1];
      cbn [fst snd] in *; [exact Hlog | discriminate Hnil].
Qed.

(** C7. While the stored uuid is the empty string, a credit fetch logs an
    error and returns no credits, and nothing is sent to the credit manager;
    in particular no call made before [SetUUID] reaches the credit manager. *)
Theorem fetch_before_SetUUID :
  (forall t (operations : list string) r,
     uuid t = "" ->
     (fetchCreditsHelper t operations r).1 = [] /\
     logged (fetchCreditsHelper t operations r).2 = (logged t ++ [uuid_not_set])%list /\
     sent (fetchCreditsHelper t operations r).2 = sent t) /\
  (forall (service : string) (o : options) (cs : list call),
     Forall (fun k : call => forall u, k <> CallSetUUID u) cs ->
     uuid (run (NewThrottler service o) cs) = "" /\
     sent (run (NewThrottler service o) cs) = []) /\
  (forall t u, uuid (SetUUID t u) = u /\ credits (SetUUID t u) = credits t).
Proof.
  split; [|split].
  - intros t ops r He.
    destruct (fetchCreditsHelper_frame t ops r) as (_ & _ & _ & _ & _ & H).
    destruct (H He) as (Hs & Hl & Hn). auto.
  - intros service o cs Hcs. unfold run.
    assert (Hinv : forall t, uuid t = "" -> sent t = [] ->
                     uuid (foldl step t cs) = "" /\ sent (foldl step t cs) = []).
    { induction Hcs as [|k cs Hk _ IH]; intros t Hu Hs; [easy|].
      cbn [foldl]. destruct k as [op r|r|u]; [| |now specialize (Hk u)].
      - apply IH; cbn [step]; unfold IsThrottled.
        + destruct (credits t !! op); [unfold isThrottled; now destruct (_ <? _)|].
          rewrite (fetchCreditsHelper_no_uuid t [op] r Hu). exact Hu.
        + destruct (credits t !! op); [unfold isThrottled; now destruct (_ <? _)|].
          rewrite (fetchCreditsHelper_no_uuid t [op] r Hu). exact Hs.
      - apply IH; cbn [step]; unfold fetchCredits, fetchCredits_request;
          rewrite (fetchCreditsHelper_no_uuid t _ r Hu); assumption. }
    now apply Hinv.
  - intros t u. split; reflexivity.
Qed.

(** C5, as the code has it.  On every poll the credits returned for an
    operation are added, in turn, to the balance that the operation has when
    they are applied (zero when it is not tracked yet); an operation that is
    not among those returned keeps its entry.  Nothing else bounds a balance:
    the outcome is the same under any options. *)
Theorem fetchCredits_adds t r :
  fetchCredits t r
  = fetchCredits_apply (fetchCredits_request t r).2 (fetchCredits_request t r).1 /\
  credits (fetchCredits_request t r).2 = credits t /\
  (forall (newCredits : list creditResponse) (op : string),
     balance (credits (fetchCredits_apply t newCredits)) op
     = add_returned (balance (credits t) op) op newCredits) /\
  (forall (cr : creditResponse),
     balance (credits (fetchCredits_apply t [cr])) (Operation cr)
     = balance (credits t) (Operation cr) + Credits cr) /\
  (forall (newCredits : list creditResponse) (op : string),
     op ∉ Operation <$> newCredits ->
     credits (fetchCredits_apply t newCredits) !! op = credits t !! op) /\
  (forall (newCredits : list creditResponse) (op : string),
     op ∈ Operation <$> newCredits ->
     is_Some (credits (fetchCredits_apply t newCredits) !! op)) /\
  (forall (O' : Type) (o' : O'),
     credits (fetchCredits (with_options t o') r) = credits (fetchCredits t r)).
Proof.
  split; [|split; [|split; [|split; [|split; [|split]]]]].
  - unfold fetchCredits. now destruct (fetchCredits_request t r).
  - unfold fetchCredits_request. apply fetchCreditsHelper_frame.
  - intros l op. cbn [fetchCredits_apply set_credits credits].
    apply balance_foldl_add_credit.
  - intros cr. cbn [fetchCredits_apply set_credits credits].
    rewrite balance_foldl_add_credit. cbn [add_returned]. now rewrite String.eqb_refl.
  - intros l op Hop. cbn [fetchCredits_apply set_credits credits].
    now apply lookup_foldl_add_credit_other.
  - intros l op Hop. cbn [fetchCredits_apply set_credits credits].
    now apply lookup_foldl_add_credit_some.
  - intros O' o'. unfold fetchCredits, fetchCredits_request, fetchCreditsHelper,
      FetchCredits, with_options. cbn [uuid credits service].
    destruct (String.eqb (uuid t) ""); [reflexivity|]. now destruct (failure r).
Qed.

End ThrottlerFacts.

Section ThrottlerWitnesses.

Import Remote.
Local Open Scope float_scope.


Lemma IsThrottled_failed_fetch_retries_witness :
  let t := SetUUID (NewThrottler "svc" tt) "u" in
  let r := mkReply [] (Some "connection refused") in
  (IsThrottled t "op" r).1 = true /\ credits (IsThrottled t "op" r).2 = credits t.
Proof.
  intros t r.
  destruct (IsThrottled_failed_fetch_retries t "op" r) as (H1 & H2 & _);
    [reflexivity | reflexivity |].
  split; [exact H1 | exact H2].
Defined.

Lemma fetch_before_SetUUID_witness :
  let t := NewThrottler "svc" tt in
  (fetchCreditsHelper t ["op"] (mkReply [mkCreditResponse "op" 5] None)).1 = [] /\
  sent (run t [CallIsThrottled "op" (mkReply [mkCreditResponse "op" 5] None);
               Tick (mkReply [] None)]) = [].
Proof.
  intros t. split.
  - apply (proj1 fetch_before_SetUUID t). reflexivity.
  - apply (proj1 (proj2 fetch_before_SetUUID) "svc" tt).
    repeat constructor; intros u; discriminate.
Defined.

Lemma fetchCredits_adds_witness :
  let t := mkThrottler tt "svc" "u" {[ "op" := 2.5 ]} [] [] in
  balance (credits (fetchCredits_apply t [mkCreditResponse "op" 4])) "op" = 6.5.
Proof.
  intros t.
  exact (proj1 (proj2 (proj2 (proj2 (fetchCredits_adds t (mkReply [] None)))))
           (mkCreditResponse "op" 4)).
Defined.

(** C5, the cap: there is none.  Whatever finite cap is proposed, a throttler
    that is told twice of 2^1023 credits for an operation holds more. *)
Lemma fetchCredits_exceeds_every_cap :
  ~ exists cap : float,
      is_finite cap = true /\
      forall (cs : list call) (op : string) (x : float),
        credits (run (NewThrottler "svc" tt) cs) !! op = Some x -> (x <=? cap) = true.
Proof.
  intros (cap & Hfin & Hcap).
  specialize (Hcap [CallSetUUID "u";
                    CallIsThrottled "op" (mkReply [mkCreditResponse "op" 0x1p+1023] None);
                    Tick (mkReply [mkCreditResponse "op" 0x1p+1023] None)]
                   "op" infinity).
  rewrite (finite_below_infinity cap Hfin) in Hcap.
  discriminate Hcap. vm_compute. reflexivity.
Qed.

End ThrottlerWitnesses.

(* ===================================================================== *)
(** * What the parsers accept                                            *)
(* ===================================================================== *)

Section Accept.

Variables fn s0 : string.

Ltac each_byte c :=
  destruct c as [[] [] [] [] [] [] [] []].

Lemma digit_of_byte_hex (c : ascii) :
  match digit_of_byte (byte_val c) with
  | Some d => 0 <= d /\ is_hex_byte c = (d <? 16)
  | None => is_hex_byte c = false
  end.
Proof. each_byte c; vm_compute; try reflexivity; split; (reflexivity || discriminate). Qed.

Lemma digit_of_byte_dec (c : ascii) :
  match digit_of_byte (byte_val c) with
  | Some d => 0 <= d /\ is_dec_byte c = (d <? 10) /\ ((d <? 10) = true -> d = byte_val c - 48)
  | None => is_dec_byte c = false
  end.
Proof.
  each_byte c; vm_compute; try reflexivity;
    (split; [discriminate | split; [reflexivity | try reflexivity; discriminate]]).
Qed.

(** Up to 16 hexadecimal digits never overflow 64 bits. *)
Lemma parse_loop_hex_accepts (s : string) :
  forall (n : Z) (k : nat),
    all_bytes is_hex_byte s = true ->
    0 <= n < 16 ^ Z.of_nat k -> (k + String.length s <= 16)%nat ->
    exists v, parse_loop fn s0 16 maxUint64 (cutoff 16) n s = (v, None).
Proof.
  induction s as [|c s IH]; intros n k Hall Hn Hk; [now exists n|].
  cbn [all_bytes] in Hall. apply andb_true_iff in Hall as [Hc Hall].
  cbn [String.length] in Hk. cbn [parse_loop].
  pose proof (digit_of_byte_hex c) as Hd.
  destruct (digit_of_byte (byte_val c)) as [d|]; [|congruence].
  destruct Hd as [Hd0 Hd]. rewrite Hc in Hd. symmetry in Hd. apply Z.ltb_lt in Hd.
  replace (16 <=? d) with false by (symmetry; apply Z.leb_gt; lia).
  assert (Hpow : 16 ^ Z.of_nat k <= 16 ^ 15) by (apply Z.pow_le_mono_r; lia).
  assert (Hpow' : 16 ^ Z.of_nat (S k) <= 16 ^ 16) by (apply Z.pow_le_mono_r; lia).
  assert (Hs : 16 ^ Z.of_nat (S k) = 16 * 16 ^ Z.of_nat k)
    by (rewrite Nat2Z.inj_succ, Z.pow_succ_r; lia).
  change (16 ^ 15) with (2 ^ 60) in Hpow. change (16 ^ 16) with (2 ^ 64) in Hpow'.
  replace (cutoff 16 <=? n) with false
    by (symmetry; apply Z.leb_gt; change (cutoff 16) with (2 ^ 60); lia).
  unfold wrap64. rewrite (Z.mod_small (n * 16)) by lia.
  rewrite (Z.mod_small (n * 16 + d)) by lia.
  replace (n * 16 + d <? n * 16) with false by (symmetry; apply Z.ltb_ge; lia).
  replace (maxUint64 <? n * 16 + d) with false
    by (symmetry; apply Z.ltb_ge; unfold maxUint64; lia).
  cbn [orb]. apply (IH _ (S k)); [assumption | lia | lia].
Qed.

(** A byte that is not a digit of the base makes the loop fail, wherever it
    stands. *)
Lemma parse_loop_hex_rejects (maxVal : Z) (s : string) :
  forall (n : Z),
    all_bytes is_hex_byte s = false ->
    (parse_loop fn s0 16 maxVal (cutoff 16) n s).2 <> None.
Proof.
  induction s as [|c s IH]; intros n Hall; [discriminate Hall|].
  cbn [all_bytes] in Hall. cbn [parse_loop].
  pose proof (digit_of_byte_hex c) as Hd.
  destruct (digit_of_byte (byte_val c)) as [d|]; [|easy].
  destruct Hd as [_ Hd]. destruct (16 <=? d) eqn:E16; [easy|].
  destruct (cutoff 16 <=? n); [easy|].
  destruct (_ || _); [easy|].
  apply IH. apply Z.leb_gt in E16. apply Z.ltb_lt in E16. rewrite E16 in Hd.
  now rewrite Hd in Hall.
Qed.

Lemma parse_loop_dec_rejects (maxVal : Z) (s : string) :
  forall (n : Z),
    all_bytes is_dec_byte s = false ->
    (parse_loop fn s0 10 maxVal (cutoff 10) n s).2 <> None.
Proof.
  induction s as [|c s IH]; intros n Hall; [discriminate Hall|].
  cbn [all_bytes] in Hall. cbn [parse_loop].
  pose proof (digit_of_byte_dec c) as Hd.
  destruct (digit_of_byte (byte_val c)) as [d|]; [|easy].
  destruct Hd as (_ & Hd & _). destruct (10 <=? d) eqn:E10; [easy|].
  destruct (cutoff 10 <=? n); [easy|].
  destruct (_ || _); [easy|].
  apply IH. apply Z.leb_gt in E10. apply Z.ltb_lt in E10. rewrite E10 in Hd.
  now rewrite Hd in Hall.
Qed.

Lemma dec_value_from_ge (s : string) :
  forall n, 0 <= n -> all_bytes is_dec_byte s = true -> n <= dec_value_from n s.
Proof.
  induction s as [|c s IH]; intros n Hn Hall; [reflexivity|].
  cbn [all_bytes] in Hall. apply andb_true_iff in Hall as [Hc Hall].
  cbn [dec_value_from]. unfold is_dec_byte in Hc.
  apply andb_true_iff in Hc as [Hc1 Hc2]. apply Z.leb_le in Hc1, Hc2.
  etransitivity; [|apply IH]; [lia | lia | assumption].
Qed.

(** Decimal digits are accepted as long as the number fits 8 bits. *)
Lemma parse_loop_dec8 (s : string) :
  forall (n : Z),
    0 <= n <= 255 -> all_bytes is_dec_byte s = true ->
    parse_loop fn s0 10 255 (cutoff 10) n s =
    if dec_value_from n s <=? 255 then (dec_value_from n s, None)
    else (255, Some (ErrRange fn s0)).
Proof.
  induction s as [|c s IH]; intros n Hn Hall.
  - cbn. now replace (n <=? 255) with true by (symmetry; apply Z.leb_le; lia).
  - pose proof (dec_value_from_ge (String c s) n ltac:(lia) Hall) as Hge.
    cbn [all_bytes] in Hall. apply andb_true_iff in Hall as [Hc Hall].
    cbn [parse_loop dec_value_from] in *.
    pose proof (digit_of_byte_dec c) as Hd.
    destruct (digit_of_byte (byte_val c)) as [d|]; [|congruence].
    destruct Hd as (Hd0 & Hd & Hv). rewrite Hc in Hd. symmetry in Hd.
    specialize (Hv Hd). apply Z.ltb_lt in Hd.
    replace (10 <=? d) with false by (symmetry; apply Z.leb_gt; lia).
    replace (cutoff 10 <=? n) with false
      by (symmetry; apply Z.leb_gt;
          change (cutoff 10) with 1844674407370955162; lia).
    unfold wrap64. rewrite (Z.mod_small (n * 10)) by lia.
    rewrite (Z.mod_small (n * 10 + d)) by lia.
    replace (n * 10 + d <? n * 10) with false by (symmetry; apply Z.ltb_ge; lia).
    cbn [orb]. rewrite <- Hv. replace (10 * n + d) with (n * 10 + d) by lia.
    destruct (255 <? n * 10 + d) eqn:E.
    + apply Z.ltb_lt in E.
      pose proof (dec_value_from_ge s (n * 10 + d) ltac:(lia) Hall) as Hge'.
      now replace (dec_value_from (n * 10 + d) s <=? 255) with false
        by (symmetry; apply Z.leb_gt; lia).
    + apply Z.ltb_ge in E. apply IH; [lia | assumption].
Qed.

End Accept.

Section AcceptIDs.

Lemma length_zero_empty (s : string) : String.length s = O -> s = "".
Proof. now destruct s. Qed.

Lemma slice_to_from (n : nat) :
  forall s, slice_to n s +:+ slice_from n s = s.
Proof.
  induction n as [|n IH]; intros [|c s]; try reflexivity.
  cbn [slice_to slice_from]. rewrite append_cons. now rewrite IH.
Qed.

Lemma slice_to_length (n : nat) :
  forall s, (n <= String.length s)%nat -> String.length (slice_to n s) = n.
Proof.
  induction n as [|n IH]; intros [|c s] H; cbn in *; try reflexivity; try lia.
  rewrite IH; lia.
Qed.

Lemma slice_from_length (n : nat) :
  forall s, String.length (slice_from n s) = (String.length s - n)%nat.
Proof.
  induction n as [|n IH]; intros [|c s]; cbn in *; try reflexivity. apply IH.
Qed.

Lemma ParseUint_hex_accepts (s : string) :
  hex_part 16 s = true -> exists v, ParseUint s 16 64 = (v, None).
Proof.
  unfold hex_part. rewrite !andb_true_iff.
  intros [[H1 H2] Hall]. apply Nat.leb_le in H1, H2.
  rewrite ParseUint_16_64 by (intros ->; cbn in H1; lia).
  apply (parse_loop_hex_accepts _ _ s 0 0 Hall); cbn; lia.
Qed.

Lemma ParseUint_hex_rejects (s : string) :
  all_bytes is_hex_byte s = false -> (ParseUint s 16 64).2 <> None.
Proof.
  intros Hall. destruct s as [|c s]; [discriminate Hall|].
  rewrite ParseUint_16_64 by discriminate. now apply parse_loop_hex_rejects.
Qed.

Lemma ParseUint_empty (base bitSize : Z) : (ParseUint "" base bitSize).2 <> None.
Proof. discriminate. Qed.

(** [SpanIDFromString] accepts exactly 1 to 16 hexadecimal digits. *)
Lemma SpanIDFromString_accepts (s : string) :
  (SpanIDFromString s).2 = None <-> hex_part 16 s = true.
Proof.
  unfold SpanIDFromString. destruct (16 <? String.length s)%nat eqn:E.
  - apply Nat.ltb_lt in E. unfold hex_part.
    replace (String.length s <=? 16)%nat with false by (symmetry; apply Nat.leb_gt; lia).
    rewrite andb_false_r. cbn. easy.
  - apply Nat.ltb_ge in E. destruct (hex_part 16 s) eqn:Hp.
    + destruct (ParseUint_hex_accepts s Hp) as [v ->]. easy.
    + split; [|discriminate]. intros Hok. exfalso.
      unfold hex_part in Hp. rewrite !andb_false_iff in Hp.
      destruct Hp as [[Hp|Hp]|Hp].
      * apply Nat.leb_gt in Hp. assert (s = "") as -> by (apply length_zero_empty; lia).
        discriminate Hok.
      * apply Nat.leb_gt in Hp. lia.
      * apply ParseUint_hex_rejects in Hp.
        destruct (ParseUint s 16 64) as [v [e|]]; [discriminate Hok | now apply Hp].
Qed.

(** [TraceIDFromString] accepts exactly 1 to 32 hexadecimal digits. *)
Lemma TraceIDFromString_accepts (s : string) :
  (TraceIDFromString s).2 = None <-> hex_part 32 s = true.
Proof.
  unfold TraceIDFromString. destruct (32 <? String.length s)%nat eqn:E32.
  { apply Nat.ltb_lt in E32. unfold hex_part.
    replace (String.length s <=? 32)%nat with false by (symmetry; apply Nat.leb_gt; lia).
    rewrite andb_false_r. cbn. easy. }
  apply Nat.ltb_ge in E32. destruct (16 <? String.length s)%nat eqn:E16.
  - apply Nat.ltb_lt in E16.
    set (hiLen := (String.length s - 16)%nat).
    pose proof (slice_to_from hiLen s) as Hs.
    pose proof (slice_to_length hiLen s ltac:(lia)) as Hlh.
    pose proof (slice_from_length hiLen s) as Hll.
    assert (Hp : hex_part 32 s
                 = hex_part 16 (slice_to hiLen s) && hex_part 16 (slice_from hiLen s)).
    { unfold hex_part. rewrite <- Hs at 3. rewrite all_bytes_append, Hlh, Hll.
      replace (1 <=? String.length s)%nat with true by (symmetry; apply Nat.leb_le; lia).
      replace (String.length s <=? 32)%nat with true by (symmetry; apply Nat.leb_le; lia).
      replace (1 <=? hiLen)%nat with true by (symmetry; apply Nat.leb_le; lia).
      replace (hiLen <=? 16)%nat with true by (symmetry; apply Nat.leb_le; lia).
      replace (1 <=? String.length s - hiLen)%nat with true
        by (symmetry; apply Nat.leb_le; lia).
      replace (String.length s - hiLen <=? 16)%nat with true
        by (symmetry; apply Nat.leb_le; lia).
      reflexivity. }
    rewrite Hp, andb_true_iff, <- !SpanIDFromString_accepts.
    unfold SpanIDFromString. rewrite Hlh, Hll.
    replace (16 <? hiLen)%nat with false by (symmetry; apply Nat.ltb_ge; lia).
    replace (16 <? String.length s - hiLen)%nat with false
      by (symmetry; apply Nat.ltb_ge; lia).
    destruct (ParseUint (slice_to hiLen s) 16 64) as [hi [e|]]; cbn; [easy|].
    destruct (ParseUint (slice_from hiLen s) 16 64) as [lo [e|]]; cbn; easy.
  - apply Nat.ltb_ge in E16.
    assert (Hp : hex_part 32 s = hex_part 16 s).
    { unfold hex_part.
      replace (String.length s <=? 32)%nat with true by (symmetry; apply Nat.leb_le; lia).
      now replace (String.length s <=? 16)%nat with true
        by (symmetry; apply Nat.leb_le; lia). }
    rewrite Hp, <- SpanIDFromString_accepts. unfold SpanIDFromString.
    replace (16 <? String.length s)%nat with false by (symmetry; apply Nat.ltb_ge; lia).
    destruct (ParseUint s 16 64) as [lo [e|]]; cbn; easy.
Qed.

(** [ParseUint(s, 10, 8)] accepts exactly the decimal numbers up to 255. *)
Lemma ParseUint_dec8_accepts (s : string) :
  (ParseUint s 10 8).2 = None <-> dec8_part s = true.
Proof.
  destruct s as [|c s]; [cbn; easy|].
  unfold ParseUint, dec8_part.
  change (String.eqb (String c s) "") with false.
  change (wrap64 (wrap64 (Z.shiftl 1 8) - 1)) with 255.
  cbn [negb andb orb String.length Nat.leb].
  change ((if 8 =? 0 then 64 else 8)) with 8.
  change (negb ((2 <=? 10) && (10 <=? 36))) with false.
  change ((8 <? 0) || (64 <? 8)) with false. cbv iota.
  destruct (all_bytes is_dec_byte (String c s)) eqn:Hall.
  - rewrite parse_loop_dec8 by (lia || assumption).
    destruct (dec_value_from 0 (String c s) <=? 255); cbn; easy.
  - cbn [andb]. split; [|discriminate]. intros Hok. exfalso.
    now apply (parse_loop_dec_rejects "ParseUint" (String c s) 255 (String c s) 0 Hall).
Qed.

Lemma ParseUint_dec8_value (s : string) (v : Z) :
  ParseUint s 10 8 = (v, None) -> v = dec_value_from 0 s /\ 0 <= v <= 255.
Proof.
  intros H. pose proof (proj1 (ParseUint_dec8_accepts s) ltac:(now rewrite H)) as Hp.
  unfold dec8_part in Hp. rewrite !andb_true_iff in Hp. destruct Hp as [[Hl Hall] Hv].
  destruct s as [|c s]; [discriminate Hl|].
  unfold ParseUint in H.
  change (String.eqb (String c s) "") with false in H.
  change (wrap64 (wrap64 (Z.shiftl 1 8) - 1)) with 255 in H.
  change ((if 8 =? 0 then 64 else 8)) with 8 in H.
  change (negb ((2 <=? 10) && (10 <=? 36))) with false in H.
  change ((8 <? 0) || (64 <? 8)) with false in H. cbv iota in H.
  rewrite parse_loop_dec8, Hv in H by (lia || assumption).
  injection H as <-. apply Z.leb_le in Hv.
  pose proof (dec_value_from_ge (String c s) 0 ltac:(lia) Hall) as Hge.
  split; [reflexivity | split; [exact Hge | exact Hv]].
Qed.

End AcceptIDs.

(* ===================================================================== *)
(** * Tracer state strings                                               *)
(* ===================================================================== *)

Section TracerState.

Lemma Split_not_nil (s : string) (sep : ascii) : Split s sep <> [].
Proof.
  destruct s as [|c s]; [discriminate|]. cbn [Split].
  destruct (Ascii.eqb c sep); [discriminate|]. now destruct (Split s sep).
Qed.

Lemma Split_app_sep (a rest : string) :
  no_colon a = true -> Split (a +:+ String ":"%char rest) ":"%char = a :: Split rest ":"%char.
Proof.
  induction a as [|c a IH]; intros Ha; [reflexivity|].
  unfold no_colon in Ha. cbn [all_bytes] in Ha. apply andb_true_iff in Ha as [Hc Ha].
  rewrite append_cons. cbn [Split]. apply negb_true_iff in Hc. rewrite Hc.
  now rewrite (IH Ha).
Qed.

Lemma Split_no_sep (a : string) : no_colon a = true -> Split a ":"%char = [a].
Proof.
  induction a as [|c a IH]; intros Ha; [reflexivity|].
  unfold no_colon in Ha. cbn [all_bytes] in Ha. apply andb_true_iff in Ha as [Hc Ha].
  cbn [Split]. apply negb_true_iff in Hc. rewrite Hc. now rewrite (IH Ha).
Qed.

(** The pieces of [Split] hold no separator, and joined by it they give the
    string back. *)
Lemma Split_pieces (s : string) :
  Forall (fun p => no_colon p = true) (Split s ":"%char) /\
  Join (Split s ":"%char) ":" = s.
Proof.
  induction s as [|c s [IHf IHj]]; [split; [repeat constructor | reflexivity]|].
  cbn [Split]. pose proof (Split_not_nil s ":"%char) as Hnn.
  destruct (Ascii.eqb_spec c ":"%char) as [->|Hne].
  - split; [constructor; [reflexivity | exact IHf]|].
    destruct (Split s ":"%char) as [|p ps]; [contradiction|].
    cbn [Join] in *. now rewrite IHj.
  - destruct (Split s ":"%char) as [|p ps]; [contradiction|].
    apply Forall_cons in IHf as [Hp Hps]. split.
    + constructor; [|exact Hps]. unfold no_colon in *. cbn [all_bytes]. rewrite Hp.
      apply Ascii.eqb_neq in Hne. now rewrite Hne.
    + destruct ps as [|q ps]; cbn [Join] in *; [now rewrite IHj|].
      rewrite append_cons. now rewrite IHj.
Qed.

Lemma four_parts_Split (value p0 p1 p2 p3 : string) :
  four_parts value p0 p1 p2 p3 <-> Split value ":"%char = [p0; p1; p2; p3].
Proof.
  split.
  - intros (-> & H0 & H1 & H2 & H3).
    rewrite !(append_cons ":"%char ""), !append_nil_l.
    rewrite (Split_app_sep p0 _ H0), (Split_app_sep p1 _ H1), (Split_app_sep p2 _ H2).
    now rewrite (Split_no_sep p3 H3).
  - intros H. destruct (Split_pieces value) as [Hf Hj]. rewrite H in Hf, Hj.
    cbn [Join] in Hj. repeat (apply Forall_cons in Hf as [? Hf]).
    split; [now symmetry | auto].
Qed.

Lemma malformed_not_well_formed (value : string) :
  malformed value <-> ~ well_formed value.
Proof.
  split.
  - intros [->|[Hno|(p0 & p1 & p2 & p3 & Hp & Hbad)]] (q0 & q1 & q2 & q3 & Hq & G0 & G1 & G2 & G3).
    + apply four_parts_Split in Hq. discriminate Hq.
    + exact (Hno _ _ _ _ Hq).
    + apply four_parts_Split in Hp, Hq. rewrite Hp in Hq. injection Hq as -> -> -> ->.
      destruct Hbad as [H|[H|[H|H]]]; congruence.
  - intros Hnw. destruct (Split value ":"%char) as [|p0 [|p1 [|p2 [|p3 [|p4 ps]]]]] eqn:Hs;
      try (right; left; intros q0 q1 q2 q3 Hq; apply four_parts_Split in Hq;
           rewrite Hs in Hq; discriminate Hq).
    right; right. exists p0, p1, p2, p3. apply four_parts_Split in Hs. split; [exact Hs|].
    destruct (hex_part 32 p0) eqn:G0; [|auto].
    destruct (hex_part 16 p1) eqn:G1; [|auto].
    destruct (hex_part 16 p2) eqn:G2; [|auto].
    destruct (dec8_part p3) eqn:G3; [|auto].
    exfalso. apply Hnw. exists p0, p1, p2, p3. auto.
Qed.

(** The result of [ContextFromString] on a string of four parts. *)
Lemma ContextFromString_four_parts (h : Heap) (value p0 p1 p2 p3 : string) :
  Split value ":"%char = [p0; p1; p2; p3] ->
  ((ContextFromString h value).1.2 = None <->
   hex_part 32 p0 = true /\ hex_part 16 p1 = true /\ hex_part 16 p2 = true /\
   dec8_part p3 = true) /\
  ((ContextFromString h value).1.2 <> None ->
   (ContextFromString h value).1.1 = emptyContext /\ (ContextFromString h value).2 = h).
Proof.
  intros Hs. unfold ContextFromString.
  assert (Hne : String.eqb value "" = false).
  { destruct value; [discriminate Hs | reflexivity]. }
  rewrite Hne, Hs.
  rewrite <- TraceIDFromString_accepts, <- !SpanIDFromString_accepts,
    <- ParseUint_dec8_accepts.
  destruct (TraceIDFromString p0) as [tid [e|]]; cbn [fst snd]; [split; [split|]; easy|].
  destruct (SpanIDFromString p1) as [sid [e|]]; cbn [fst snd]; [split; [split|]; easy|].
  destruct (SpanIDFromString p2) as [pid [e|]]; cbn [fst snd]; [split; [split|]; easy|].
  destruct (ParseUint p3 10 8) as [fl [e|]]; cbn [fst snd]; [split; [split|]; easy|].
  unfold new_state. cbn [fst snd]. split; [split|]; easy.
Qed.

End TracerState.

(** C6. [ContextFromString] returns an error exactly when the value is
    malformed: empty, not made of four colon-separated parts, with a trace,
    span or parent part that is not a hexadecimal number of at most 32 (16)
    digits, or with a flags part that is not a decimal number fitting 8 bits.
    On every error the context returned is the empty one, and nothing was
    allocated. *)
Theorem ContextFromString_error_iff (h : Heap) (value : string) :
  ((ContextFromString h value).1.2 <> None <-> malformed value) /\
  ((ContextFromString h value).1.2 = None <-> well_formed value) /\
  ((ContextFromString h value).1.2 <> None ->
   (ContextFromString h value).1.1 = emptyContext /\ (ContextFromString h value).2 = h).
Proof.
  assert (Hok : (ContextFromString h value).1.2 = None <-> well_formed value).
  { destruct (Split value ":"%char) as [|p0 [|p1 [|p2 [|p3 [|p4 ps]]]]] eqn:Hs.
    5:{ destruct (ContextFromString_four_parts h value p0 p1 p2 p3 Hs) as [-> _].
        split.
        - intros G. exists p0, p1, p2, p3. now rewrite four_parts_Split.
        - intros (q0 & q1 & q2 & q3 & Hq & G). apply four_parts_Split in Hq.
          rewrite Hs in Hq. now injection Hq as -> -> -> ->. }
    all: split;
      [ unfold ContextFromString; rewrite Hs; now destruct (String.eqb value "")
      | intros (q0 & q1 & q2 & q3 & Hq & _); apply four_parts_Split in Hq;
        rewrite Hs in Hq; discriminate Hq ]. }
  split; [|split; [exact Hok|]].
  - rewrite malformed_not_well_formed, <- Hok.
    destruct ((ContextFromString h value).1.2); split; try easy.
  - destruct (Split value ":"%char) as [|p0 [|p1 [|p2 [|p3 [|p4 ps]]]]] eqn:Hs.
    5:{ apply (ContextFromString_four_parts h value p0 p1 p2 p3 Hs). }
    all: unfold ContextFromString; rewrite Hs; now destruct (String.eqb value "").
Qed.

(* ===================================================================== *)
(** * B3 propagation                                                     *)
(* ===================================================================== *)


Section B3.

Import Zipkin.

Variables (tid : TraceID) (sid pid : Z) (sampled : bool).
Hypothesis tid_wf : TraceID_wf tid.
Hypothesis sid_range : uint64_range sid.
Hypothesis pid_range : uint64_range pid.






End B3.

Section B3RoundTrip.

Import Zipkin.





(** The carrier that [Inject] leaves. *)
Lemma Inject_carrier (h : Heap) (sc : SpanContext) (m : gmap string string)
    (s : samplingState) :
  deref_state h sc = Some s ->
  Inject h sc (TextMapCarrier m) =
  Some (TextMapCarrier
          (<[ "x-b3-sampled" := if isSampled s then "1" else "0" ]>
             (<[ "x-b3-spanid" := FormatUint16 (spanID sc) ]>
                (if negb (parentID sc =? 0)
                 then <[ "x-b3-parentspanid" := FormatUint16 (parentID sc) ]>
                        (<[ "x-b3-traceid" := TraceID_String (traceID sc) ]> m)
                 else <[ "x-b3-traceid" := TraceID_String (traceID sc) ]> m))),
        None).
Proof.
  intros Hs. unfold Inject, SpanContext_IsSampled. rewrite Hs. cbn.
  now destruct (isSampled s).
Qed.





End B3RoundTrip.


(* ===================================================================== *)
(** * The string form of a span context                                  *)
(* ===================================================================== *)

Section ContextText.

Lemma lower_hex_no_colon (s : string) :
  all_bytes is_lower_hex s = true -> no_colon s = true.
Proof.
  unfold no_colon. induction s as [|c s IH]; [reflexivity|].
  cbn [all_bytes]. rewrite !andb_true_iff. intros [Hc Hs]. split; [|auto].
  clear -Hc. destruct c as [[] [] [] [] [] [] [] []]; (reflexivity || discriminate Hc).
Qed.

Lemma FormatUint16_no_colon (u : Z) : uint64_range u -> no_colon (FormatUint16 u) = true.
Proof. intros Hu. apply lower_hex_no_colon. now apply FormatUint16_numeral. Qed.

Lemma TraceID_String_no_colon (t : TraceID) :
  TraceID_wf t -> no_colon (TraceID_String t) = true.
Proof.
  intros [Hhi Hlo]. apply lower_hex_no_colon. unfold TraceID_String.
  destruct (High t =? 0); [now apply FormatUint16_numeral|].
  rewrite all_bytes_append.
  rewrite (proj1 (FormatUint16_numeral _ Hhi)).
  now rewrite (proj1 (proj2 (Sprintf_016x_padded _ Hlo))).
Qed.

Lemma SpanIDFromString_String (x : Z) :
  uint64_range x -> SpanIDFromString (SpanID_String x) = (x, None).
Proof.
  intros Hx. unfold SpanIDFromString, SpanID_String.
  pose proof (FormatUint16_length x) as Hlen.
  replace (16 <? String.length (FormatUint16 x))%nat with false
    by (symmetry; apply Nat.ltb_ge; lia).
  now rewrite ParseUint_FormatUint16.
Qed.

(** The string form: trace ID, span ID, parent ID and flags, each through
    [%x], between colons. *)
Lemma SpanContext_String_parts (h : Heap) (c : SpanContext) (s : samplingState) :
  deref_state h c = Some s ->
  SpanContext_String h c =
  Some (TraceID_String (traceID c) +:+ ":" +:+ SpanID_String (spanID c) +:+ ":"
        +:+ SpanID_String (parentID c) +:+ ":" +:+ Sprintf_x_signed (_flags s)).
Proof.
  intros Hs. unfold SpanContext_String, TraceID_String, SpanID_String. rewrite Hs. cbn.
  destruct (High (traceID c) =? 0); [reflexivity|]. now rewrite append_assoc.
Qed.

(** X22. While the flags word is below ten its hexadecimal and decimal forms
    coincide, and the string form is read back: [ContextFromString(c.String())]
    succeeds with the trace, span and parent IDs and the flags of [c]. *)
Lemma String_roundtrip_small_flags (h : Heap) (c : SpanContext) (s : samplingState) :
  deref_state h c = Some s ->
  TraceID_wf (traceID c) -> uint64_range (spanID c) -> uint64_range (parentID c) ->
  0 <= _flags s <= 9 ->
  exists value c' h',
    SpanContext_String h c = Some value /\
    ContextFromString h value = (c', None, h') /\
    traceID c' = traceID c /\ spanID c' = spanID c /\ parentID c' = parentID c /\
    deref_state h' c' = Some (mkSamplingState (_flags s)).
Proof.
  intros Hs Ht Hsid Hpid Hf.
  rewrite (SpanContext_String_parts h c s Hs).
  set (F := Sprintf_x_signed (_flags s)).
  assert (HF : no_colon F = true /\ ParseUint F 10 8 = (_flags s, None)).
  { subst F. unfold Sprintf_x_signed.
    replace (_flags s <? 0) with false by (symmetry; apply Z.ltb_ge; lia).
    assert (Hc : _flags s = 0 \/ _flags s = 1 \/ _flags s = 2 \/ _flags s = 3 \/
                 _flags s = 4 \/ _flags s = 5 \/ _flags s = 6 \/ _flags s = 7 \/
                 _flags s = 8 \/ _flags s = 9) by lia.
    destruct Hc as [->|[->|[->|[->|[->|[->|[->|[->|[->| ->]]]]]]]]]; split; reflexivity. }
  destruct HF as [HFc HFp].
  eexists _, _, _. split; [reflexivity|].
  assert (Hsplit : Split (TraceID_String (traceID c) +:+ ":" +:+ SpanID_String (spanID c)
                          +:+ ":" +:+ SpanID_String (parentID c) +:+ ":" +:+ F) ":"%char
                   = [TraceID_String (traceID c); SpanID_String (spanID c);
                      SpanID_String (parentID c); F]).
  { apply four_parts_Split. split; [reflexivity|].
    auto using TraceID_String_no_colon, FormatUint16_no_colon. }
  unfold ContextFromString. rewrite Hsplit.
  rewrite eqb_empty_false.
  2:{ intros E. rewrite E in Hsplit. discriminate Hsplit. }
  rewrite (TraceIDFromString_String _ Ht), !SpanIDFromString_String, HFp by assumption.
  unfold new_state, setFlags. rewrite Z.mod_small by lia.
  split; [reflexivity|]. cbn [traceID spanID parentID]. repeat split.
  unfold deref_state. cbn [samplingState_ptr states mbind option_bind].
  apply lookup_insert_eq.
Qed.

End ContextText.

(** C1, at inputs the code receives.  The flags go through [%x]: a context
    that is sampled, debug and firehose (flags 11) is written ["1:1:0:b"],
    which [ContextFromString] rejects; one with flags 16 is written
    ["1:1:0:10"], which it reads as flags 10. *)
Theorem String_flags_not_read_back :
  let s := setFirehose (setDebugAndSampled (mkSamplingState 0)) in
  let h := mkHeap {[ 1%positive := s ]} ∅ in
  let c := mkSpanContext (mkTraceID 0 1) 1 0 None "" (Some 1%positive) in
  flags s = 11 /\
  SpanContext_String h c = Some "1:1:0:b" /\
  (ContextFromString h "1:1:0:b").1 = (emptyContext, Some (ErrSyntax "ParseUint" "b")) /\
  let h16 := mkHeap {[ 1%positive := mkSamplingState 16 ]} ∅ in
  SpanContext_String h16 c = Some "1:1:0:10" /\
  deref_state (ContextFromString h16 "1:1:0:10").2 (ContextFromString h16 "1:1:0:10").1.1
  = Some (mkSamplingState 10).
Proof. vm_compute. repeat split; reflexivity. Qed.

(* ===================================================================== *)
(** * Identifiers as numbers                                             *)
(* ===================================================================== *)

Section IDValues.

Lemma digit_of_byte_hex_val (c : ascii) :
  is_hex_byte c = true ->
  digit_of_byte (byte_val c) = Some (hex_digit_val c) /\ 0 <= hex_digit_val c < 16.
Proof.
  destruct c as [[] [] [] [] [] [] [] []]; intros H; try discriminate H;
    vm_compute; repeat split; discriminate.
Qed.

(** Up to 16 hexadecimal digits are read as the number they denote. *)
Lemma parse_loop_hex_val (fn s0 : string) (s : string) :
  forall (n : Z) (k : nat),
    all_bytes is_hex_byte s = true ->
    0 <= n < 16 ^ Z.of_nat k -> (k + String.length s <= 16)%nat ->
    parse_loop fn s0 16 maxUint64 (cutoff 16) n s = (hex_val_from n s, None) /\
    0 <= hex_val_from n s < 2 ^ 64.
Proof.
  induction s as [|c s IH]; intros n k Hall Hn Hk.
  - cbn. split; [reflexivity|].
    assert (16 ^ Z.of_nat k <= 16 ^ 16) by (apply Z.pow_le_mono_r; cbn in Hk; lia).
    change (16 ^ 16) with (2 ^ 64) in *. lia.
  - cbn [all_bytes] in Hall. apply andb_true_iff in Hall as [Hc Hall].
    cbn [String.length] in Hk. cbn [parse_loop hex_val_from].
    destruct (digit_of_byte_hex_val c Hc) as [-> Hd].
    replace (16 <=? hex_digit_val c) with false by (symmetry; apply Z.leb_gt; lia).
    assert (Hpow : 16 ^ Z.of_nat k <= 16 ^ 15) by (apply Z.pow_le_mono_r; lia).
    assert (Hpow' : 16 ^ Z.of_nat (S k) <= 16 ^ 16) by (apply Z.pow_le_mono_r; lia).
    assert (Hs : 16 ^ Z.of_nat (S k) = 16 * 16 ^ Z.of_nat k)
      by (rewrite Nat2Z.inj_succ, Z.pow_succ_r; lia).
    change (16 ^ 15) with (2 ^ 60) in Hpow. change (16 ^ 16) with (2 ^ 64) in Hpow'.
    replace (cutoff 16 <=? n) with false
      by (symmetry; apply Z.leb_gt; change (cutoff 16) with (2 ^ 60); lia).
    unfold wrap64. rewrite (Z.mod_small (n * 16)) by lia.
    rewrite (Z.mod_small (n * 16 + hex_digit_val c)) by lia.
    replace (n * 16 + hex_digit_val c <? n * 16) with false
      by (symmetry; apply Z.ltb_ge; lia).
    replace (maxUint64 <? n * 16 + hex_digit_val c) with false
      by (symmetry; apply Z.ltb_ge; unfold maxUint64; lia).
    cbn [orb]. replace (16 * n + hex_digit_val c) with (n * 16 + hex_digit_val c) by lia.
    apply (IH _ (S k)); [assumption | lia | lia].
Qed.

Lemma ParseUint_hex_val (s : string) :
  hex_part 16 s = true ->
  ParseUint s 16 64 = (hex_val s, None) /\ uint64_range (hex_val s).
Proof.
  unfold hex_part. rewrite !andb_true_iff.
  intros [[H1 H2] Hall]. apply Nat.leb_le in H1, H2.
  rewrite ParseUint_16_64 by (intros ->; cbn in H1; lia).
  apply (parse_loop_hex_val _ _ s 0 0 Hall); cbn; lia.
Qed.

Lemma SpanIDFromString_val (s : string) :
  hex_part 16 s = true -> SpanIDFromString s = (hex_val s, None).
Proof.
  intros Hp. pose proof Hp as Hp'. unfold hex_part in Hp'.
  rewrite !andb_true_iff in Hp'. destruct Hp' as [[_ H2] _]. apply Nat.leb_le in H2.
  unfold SpanIDFromString.
  replace (16 <? String.length s)%nat with false by (symmetry; apply Nat.ltb_ge; lia).
  now rewrite (proj1 (ParseUint_hex_val s Hp)).
Qed.

Lemma hex_part_split (s : string) :
  (16 < String.length s)%nat -> hex_part 32 s = true ->
  hex_part 16 (slice_to (String.length s - 16) s) = true /\
  hex_part 16 (slice_from (String.length s - 16) s) = true.
Proof.
  intros Hlen Hp. unfold hex_part in *. rewrite !andb_true_iff in Hp.
  destruct Hp as [[_ H32] Hall]. apply Nat.leb_le in H32.
  set (hiLen := (String.length s - 16)%nat) in *.
  rewrite <- (slice_to_from hiLen s), all_bytes_append in Hall.
  apply andb_true_iff in Hall as [Hh Hl].
  rewrite (slice_to_length hiLen s) by lia. rewrite slice_from_length, Hh, Hl.
  split; rewrite !andb_true_iff; repeat split; apply Nat.leb_le; lia.
Qed.

Lemma TraceIDFromString_val (s : string) :
  hex_part 32 s = true ->
  TraceIDFromString s =
  (mkTraceID (hex_val (slice_to (String.length s - 16) s))
             (hex_val (slice_from (String.length s - 16) s)), None).
Proof.
  intros Hp. pose proof Hp as Hp'. unfold hex_part in Hp'.
  rewrite !andb_true_iff in Hp'. destruct Hp' as [[H1 H32] Hall].
  apply Nat.leb_le in H1, H32. unfold TraceIDFromString.
  replace (32 <? String.length s)%nat with false by (symmetry; apply Nat.ltb_ge; lia).
  destruct (16 <? String.length s)%nat eqn:E16.
  - apply Nat.ltb_lt in E16. destruct (hex_part_split s E16 Hp) as [Hh Hl].
    now rewrite (proj1 (ParseUint_hex_val _ Hh)), (proj1 (ParseUint_hex_val _ Hl)).
  - apply Nat.ltb_ge in E16.
    replace (String.length s - 16)%nat with O by lia.
    assert (Hp16 : hex_part 16 s = true).
    { unfold hex_part. rewrite Hall, !andb_true_iff.
      repeat split; apply Nat.leb_le; lia. }
    rewrite (proj1 (ParseUint_hex_val _ Hp16)). now destruct s.
Qed.

End IDValues.

(** X1. [SpanIDFromString(s.String())] is [s] for every 64-bit span ID, and
    the text is its lowercase hexadecimal numeral without padding. *)
Theorem SpanID_roundtrip (x : Z) :
  uint64_range x ->
  SpanIDFromString (SpanID_String x) = (x, None) /\
  lower_hex_numeral x (SpanID_String x).
Proof.
  intros Hx. split; [now apply SpanIDFromString_String|].
  now apply FormatUint16_numeral.
Qed.

Lemma SpanID_roundtrip_witness :
  SpanIDFromString (SpanID_String 255) = (255, None) /\ SpanID_String 255 = "ff".
Proof.
  split; [|reflexivity].
  apply (SpanID_roundtrip 255). unfold uint64_range. lia.
Defined.

(** X2. [SpanIDFromString] accepts exactly the strings of 1 to 16 hexadecimal
    digits (either case) and returns the number they denote; anything else
    gives an error together with the zero span ID. *)
Theorem SpanIDFromString_denotes (s : string) :
  (hex_part 16 s = true ->
   SpanIDFromString s = (hex_val s, None) /\ uint64_range (hex_val s)) /\
  (hex_part 16 s = false ->
   (SpanIDFromString s).1 = 0 /\ (SpanIDFromString s).2 <> None).
Proof.
  split.
  - intros Hp. split; [now apply SpanIDFromString_val | now apply ParseUint_hex_val].
  - intros Hp. split.
    + pose proof (proj1 (SpanIDFromString_accepts s)) as Hacc.
      unfold SpanIDFromString in *.
      destruct (16 <? String.length s)%nat; [reflexivity|].
      destruct (ParseUint s 16 64) as [v [e|]]; [reflexivity|].
      cbn in Hacc. specialize (Hacc eq_refl). congruence.
    + intros H. apply SpanIDFromString_accepts in H. congruence.
Qed.

(** X3. [TraceIDFromString] accepts exactly the strings of 1 to 32
    hexadecimal digits (either case): the last 16 digits denote [Low], the
    digits before them (if any) denote [High]; anything else gives an error
    together with the zero trace ID. *)
Theorem TraceIDFromString_denotes (s : string) :
  (hex_part 32 s = true ->
   TraceIDFromString s =
   (mkTraceID (hex_val (slice_to (String.length s - 16) s))
              (hex_val (slice_from (String.length s - 16) s)), None) /\
   TraceID_wf (TraceIDFromString s).1) /\
  (hex_part 32 s = false ->
   (TraceIDFromString s).1 = mkTraceID 0 0 /\ (TraceIDFromString s).2 <> None).
Proof.
  split.
  - intros Hp. split; [now apply TraceIDFromString_val|].
    rewrite (TraceIDFromString_val s Hp). cbn [fst]. unfold TraceID_wf. cbn [High Low].
    destruct (Nat.ltb_spec 16 (String.length s)) as [Hlen|Hlen].
    + destruct (hex_part_split s Hlen Hp) as [Hh Hl].
      split; now apply ParseUint_hex_val.
    + replace (String.length s - 16)%nat with O by lia.
      assert (Hp16 : hex_part 16 s = true).
      { unfold hex_part in *. rewrite !andb_true_iff in *.
        destruct Hp as [[H1 _] Hall]. repeat split; try assumption.
        apply Nat.leb_le. lia. }
      replace (slice_to 0 s) with "" by now destruct s.
      replace (slice_from 0 s) with s by now destruct s.
      split; [unfold uint64_range, hex_val; cbn; lia | now apply ParseUint_hex_val].
  - intros Hp. split.
    + pose proof (proj1 (TraceIDFromString_accepts s)) as Hacc.
      unfold TraceIDFromString in *.
      destruct (32 <? String.length s)%nat; [reflexivity|].
      destruct (16 <? String.length s)%nat.
      * destruct (ParseUint (slice_to _ s) 16 64) as [hi [e|]]; [reflexivity|].
        destruct (ParseUint (slice_from _ s) 16 64) as [lo [e|]]; [reflexivity|].
        cbn in Hacc. specialize (Hacc eq_refl). congruence.
      * destruct (ParseUint s 16 64) as [lo [e|]]; [reflexivity|].
        cbn in Hacc. specialize (Hacc eq_refl). congruence.
    + intros H. apply TraceIDFromString_accepts in H. congruence.
Qed.

Lemma TraceIDFromString_denotes_witness :
  TraceIDFromString "00000000000000AB000000000000000c" = (mkTraceID 171 12, None) /\
  (TraceIDFromString "0x1f").2 <> None.
Proof.
  split.
  - apply (proj1 (TraceIDFromString_denotes "00000000000000AB000000000000000c")).
    reflexivity.
  - apply (proj2 (TraceIDFromString_denotes "0x1f")). reflexivity.
Defined.

(** X4. Trace IDs in the padded forms that B3 peers send are read as
    expected: 32 digits (both halves padded to 16) give [{High, Low}], and 16
    digits give [{0, Low}]. *)
Theorem TraceIDFromString_padded (hi lo : Z) :
  uint64_range hi -> uint64_range lo ->
  TraceIDFromString (Sprintf_016x hi +:+ Sprintf_016x lo) = (mkTraceID hi lo, None) /\
  TraceIDFromString (Sprintf_016x lo) = (mkTraceID 0 lo, None).
Proof.
  intros Hhi Hlo.
  assert (Eto : slice_to 16 (Sprintf_016x hi +:+ Sprintf_016x lo) = Sprintf_016x hi).
  { rewrite <- (Sprintf_016x_length hi) at 1. apply slice_to_append. }
  assert (Efrom : slice_from 16 (Sprintf_016x hi +:+ Sprintf_016x lo) = Sprintf_016x lo).
  { rewrite <- (Sprintf_016x_length hi) at 1. apply slice_from_append. }
  unfold TraceIDFromString.
  rewrite length_append, (Sprintf_016x_length hi), (Sprintf_016x_length lo).
  change (32 <? 16 + 16)%nat with false. change (16 <? 16 + 16)%nat with true.
  change (16 + 16 - 16)%nat with 16%nat.
  change (32 <? 16)%nat with false. change (16 <? 16)%nat with false. cbv iota.
  rewrite Eto, Efrom. now rewrite !ParseUint_Sprintf_016x.
Qed.

Lemma TraceIDFromString_padded_witness :
  TraceIDFromString "00000000000000010000000000000002" = (mkTraceID 1 2, None) /\
  TraceIDFromString "0000000000000002" = (mkTraceID 0 2, None).
Proof.
  apply (TraceIDFromString_padded 1 2); unfold uint64_range; lia.
Defined.

(* ===================================================================== *)
(** * Building and copying span contexts                                 *)
(* ===================================================================== *)

Section Contexts.

Lemma new_state_spec (h : Heap) (s : samplingState) :
  (fst (new_state h s) ∉ dom (states h)) /\
  states (snd (new_state h s)) = <[ fst (new_state h s) := s ]> (states h) /\
  maps (snd (new_state h s)) = maps h /\
  (forall l, l ∈ dom (states h) -> states (snd (new_state h s)) !! l = states h !! l).
Proof.
  unfold new_state. cbn [fst snd states maps].
  pose proof (is_fresh (dom (states h))) as Hfresh.
  repeat split; [exact Hfresh|].
  intros l Hl. apply lookup_insert_ne. intros E. rewrite <- E in Hl. contradiction.
Qed.

End Contexts.

Lemma NewSpanContext_props (h : Heap) (tid : TraceID) (sid pid : Z) (sampled : bool)
    (bag : option loc) :
  exists l,
    (NewSpanContext h tid sid pid sampled bag).1
    = mkSpanContext tid sid pid bag "" (Some l) /\
    (l ∉ dom (states (h))) /\
    states (NewSpanContext h tid sid pid sampled bag).2 !! l
    = Some (mkSamplingState (if sampled then flagSampled else flagUnsampled)) /\
    (forall l', l' ∈ dom (states h) ->
       states (NewSpanContext h tid sid pid sampled bag).2 !! l' = states h !! l') /\
    maps (NewSpanContext h tid sid pid sampled bag).2 = maps h /\
    SpanContext_IsSampled (NewSpanContext h tid sid pid sampled bag).2
      (NewSpanContext h tid sid pid sampled bag).1 = Some sampled /\
    SpanContext_IsDebug (NewSpanContext h tid sid pid sampled bag).2
      (NewSpanContext h tid sid pid sampled bag).1 = Some false /\
    SpanContext_IsFirehose (NewSpanContext h tid sid pid sampled bag).2
      (NewSpanContext h tid sid pid sampled bag).1 = Some false.
Proof.
  unfold NewSpanContext.
  set (s := if sampled then setSampled (mkSamplingState 0) else mkSamplingState 0).
  destruct (new_state_spec h s) as (Hfresh & Hst & Hmaps & Hframe).
  destruct (new_state h s) as [l h'] eqn:E. cbn [fst snd] in *.
  assert (Hl : states h' !! l = Some s) by (rewrite Hst; apply lookup_insert_eq).
  exists l. split; [reflexivity|]. split; [exact Hfresh|].
  split; [rewrite Hl; subst s; now destruct sampled|].
  split; [exact Hframe|]. split; [exact Hmaps|].
  unfold SpanContext_IsSampled, SpanContext_IsDebug, SpanContext_IsFirehose, deref_state.
  cbn [samplingState_ptr mbind option_bind]. rewrite Hl. subst s.
  now destruct sampled.
Qed.

(** X5. [NewSpanContext] returns a context with the given identifiers and
    baggage reference, an empty debug ID, and a sampling state of its own: a
    new object whose only flag is [sampled] as requested (never debug or
    firehose); sampling states that existed keep their flags, so flipping the
    new context's flags cannot affect another trace. *)
Theorem NewSpanContext_fresh (h : Heap) (tid : TraceID) (sid pid : Z) (sampled : bool)
    (bag : option loc) :
  exists l,
    (NewSpanContext h tid sid pid sampled bag).1
    = mkSpanContext tid sid pid bag "" (Some l) /\
    (l ∉ dom (states (h))) /\
    states (NewSpanContext h tid sid pid sampled bag).2 !! l
    = Some (mkSamplingState (if sampled then flagSampled else flagUnsampled)) /\
    (forall l', l' ∈ dom (states h) ->
       states (NewSpanContext h tid sid pid sampled bag).2 !! l' = states h !! l') /\
    maps (NewSpanContext h tid sid pid sampled bag).2 = maps h /\
    SpanContext_IsSampled (NewSpanContext h tid sid pid sampled bag).2
      (NewSpanContext h tid sid pid sampled bag).1 = Some sampled /\
    SpanContext_IsDebug (NewSpanContext h tid sid pid sampled bag).2
      (NewSpanContext h tid sid pid sampled bag).1 = Some false /\
    SpanContext_IsFirehose (NewSpanContext h tid sid pid sampled bag).2
      (NewSpanContext h tid sid pid sampled bag).1 = Some false.
Proof. apply NewSpanContext_props. Qed.



(* ===================================================================== *)
(** * The named flag operations                                          *)
(* ===================================================================== *)

Section NamedFlags.

Lemma setFlag_flags (s : samplingState) (f : Z) :
  _flags (setFlag s f) = Z.lor (_flags s) f.
Proof.
  unfold setFlag, setFlag_under. cbn [_flags].
  exact (cas_loop_alone (fun old => Z.lor old f) (_flags s)).
Qed.

Lemma resetFlag_flags (s : samplingState) (f : Z) :
  _flags (resetFlag s f) = Z.ldiff (_flags s) f.
Proof.
  unfold resetFlag, resetFlag_under. cbn [_flags].
  exact (cas_loop_alone (fun old => Z.ldiff old f) (_flags s)).
Qed.

Lemma samplingState_eq (s1 s2 : samplingState) : _flags s1 = _flags s2 -> s1 = s2.
Proof. destruct s1, s2. cbn. now intros ->. Qed.

End NamedFlags.

(** X7. Each named setter turns on its own flags and leaves the others as
    they were: [setSampled] the sampled flag, [setDebugAndSampled] the debug
    and sampled flags, [setFirehose] the firehose flag; [resetFlags] turns
    all of them off. *)
Theorem named_setters_frame (s : samplingState) :
  (isSampled (setSampled s) = true /\
   isDebug (setSampled s) = isDebug s /\ isFirehose (setSampled s) = isFirehose s) /\
  (isSampled (setDebugAndSampled s) = true /\ isDebug (setDebugAndSampled s) = true /\
   isFirehose (setDebugAndSampled s) = isFirehose s) /\
  (isFirehose (setFirehose s) = true /\
   isSampled (setFirehose s) = isSampled s /\ isDebug (setFirehose s) = isDebug s) /\
  (isSampled (resetFlags s) = false /\ isDebug (resetFlags s) = false /\
   isFirehose (resetFlags s) = false /\ flags (resetFlags s) = 0).
Proof.
  unfold setSampled, setDebugAndSampled, setFirehose.
  rewrite !isSampled_bit, !isDebug_bit, !isFirehose_bit, !setFlag_flags, !Z.lor_spec.
  change (Z.testbit flagSampled 0) with true.
  change (Z.testbit flagSampled 1) with false.
  change (Z.testbit flagSampled 3) with false.
  change (Z.testbit (Z.lor flagDebug flagSampled) 0) with true.
  change (Z.testbit (Z.lor flagDebug flagSampled) 1) with true.
  change (Z.testbit (Z.lor flagDebug flagSampled) 3) with false.
  change (Z.testbit flagFirehose 0) with false.
  change (Z.testbit flagFirehose 1) with false.
  change (Z.testbit flagFirehose 3) with true.
  rewrite !orb_true_r, !orb_false_r. repeat split; reflexivity.
Qed.

(** X8. Setting flags is idempotent and order-independent, and a mask that
    is set and then reset (or reset and then set) leaves no trace of the
    first operation. *)
Theorem flag_updates_compose (s : samplingState) (f g : Z) :
  setFlag (setFlag s f) f = setFlag s f /\
  setFlag (setFlag s f) g = setFlag (setFlag s g) f /\
  resetFlag (resetFlag s f) g = resetFlag (resetFlag s g) f /\
  resetFlag (setFlag s f) f = resetFlag s f /\
  setFlag (resetFlag s f) f = setFlag s f.
Proof.
  repeat split; apply samplingState_eq;
    rewrite ?setFlag_flags, ?resetFlag_flags, ?setFlag_flags, ?resetFlag_flags;
    apply Z.bits_inj'; intros n _;
    rewrite ?Z.lor_spec, ?Z.ldiff_spec, ?Z.lor_spec, ?Z.ldiff_spec;
    now destruct (Z.testbit (_flags s) n), (Z.testbit f n), (Z.testbit g n).
Qed.

(** X9. As long as the stored word and the masks fit a byte, so does every
    result, and [flags()] returns the whole word: [setFlags(b)] followed by
    [flags()] gives [b] back, and after [setFlag] or [resetFlag] the byte
    returned is the updated word. *)
Theorem flags_byte_roundtrip (s : samplingState) (b f : Z) :
  0 <= b < 256 -> 0 <= _flags s < 256 -> 0 <= f < 256 ->
  flags (setFlags s b) = b /\
  flags (setFlag s f) = Z.lor (_flags s) f /\
  flags (resetFlag s f) = Z.ldiff (_flags s) f /\
  0 <= flags (setFlag s f) < 256 /\ 0 <= flags (resetFlag s f) < 256.
Proof.
  intros Hb Hs Hf. destruct (flag_updates_byte (_flags s) f Hs Hf) as [Hor Hdiff].
  unfold flags. rewrite setFlag_flags, resetFlag_flags. cbn [setFlags _flags].
  rewrite !Z.mod_small by lia. repeat split; lia.
Qed.

Lemma flags_byte_roundtrip_witness :
  flags (setFlags (mkSamplingState 0) 11) = 11 /\
  flags (setFlag (mkSamplingState 1) 8) = 9.
Proof.
  destruct (flags_byte_roundtrip (mkSamplingState 1) 11 8) as (H1 & H2 & _);
    cbn; try lia.
  split; [exact H1 | exact H2].
Defined.

(* ===================================================================== *)
(** * Decoding tracer state strings                                      *)
(* ===================================================================== *)

(** X10. On a well-formed value [p0:p1:p2:p3], [ContextFromString] returns
    the context whose trace, span and parent IDs are the numbers that the
    hexadecimal parts denote and whose flags are the number that the decimal
    part denotes, with nil baggage, an empty debug ID and a sampling state of
    its own; nothing else is touched. *)
Theorem ContextFromString_decodes (h : Heap) (value p0 p1 p2 p3 : string) :
  four_parts value p0 p1 p2 p3 ->
  hex_part 32 p0 = true -> hex_part 16 p1 = true -> hex_part 16 p2 = true ->
  dec8_part p3 = true ->
  exists l,
    (l ∉ dom (states h)) /\
    ContextFromString h value =
    (mkSpanContext
       (mkTraceID (hex_val (slice_to (String.length p0 - 16) p0))
                  (hex_val (slice_from (String.length p0 - 16) p0)))
       (hex_val p1) (hex_val p2) None "" (Some l),
     None,
     mkHeap (<[ l := mkSamplingState (dec_value_from 0 p3) ]> (states h)) (maps h)).
Proof.
  intros Hparts H0 H1 H2 H3.
  apply four_parts_Split in Hparts.
  assert (Hne : String.eqb value "" = false).
  { destruct value; [discriminate Hparts | reflexivity]. }
  destruct (ParseUint p3 10 8) as [fl [e|]] eqn:Hfl.
  { apply ParseUint_dec8_accepts in H3. rewrite Hfl in H3. discriminate H3. }
  destruct (ParseUint_dec8_value p3 fl Hfl) as [-> Hrange].
  exists (fresh (dom (states h))). split; [apply is_fresh|].
  unfold ContextFromString. rewrite Hne, Hparts.
  rewrite (TraceIDFromString_val p0 H0), (SpanIDFromString_val p1 H1),
    (SpanIDFromString_val p2 H2), Hfl.
  unfold new_state, setFlags. now rewrite Z.mod_small by lia.
Qed.

Lemma ContextFromString_decodes_witness :
  exists l,
    ContextFromString empty_heap "AB:c:0:3" =
    (mkSpanContext (mkTraceID 0 171) 12 0 None "" (Some l), None,
     mkHeap {[ l := mkSamplingState 3 ]} ∅).
Proof.
  destruct (ContextFromString_decodes empty_heap "AB:c:0:3" "AB" "c" "0" "3")
    as (l & _ & H); try reflexivity.
  - repeat split; reflexivity.
  - exists l. exact H.
Defined.

Lemma String_roundtrip_small_flags_witness :
  let h := mkHeap {[ 1%positive := mkSamplingState 3 ]} ∅ in
  let c := mkSpanContext (mkTraceID 1 2) 3 4 None "" (Some 1%positive) in
  exists value c' h',
    SpanContext_String h c = Some value /\
    ContextFromString h value = (c', None, h') /\
    traceID c' = mkTraceID 1 2 /\ deref_state h' c' = Some (mkSamplingState 3).
Proof.
  intros h c.
  destruct (String_roundtrip_small_flags h c (mkSamplingState 3))
    as (value & c' & h' & H1 & H2 & H3 & _ & _ & H6).
  - reflexivity.
  - unfold TraceID_wf, uint64_range. cbn. lia.
  - unfold uint64_range. cbn. lia.
  - unfold uint64_range. cbn. lia.
  - cbn. lia.
  - exists value, c', h'. auto.
Defined.

(* ===================================================================== *)
(** * B3 carriers                                                        *)
(* ===================================================================== *)

Section B3Carriers.

Import Zipkin.

Lemma not_b3_key_ne (k : string) :
  is_b3_key k = false ->
  k <> "x-b3-traceid" /\ k <> "x-b3-parentspanid" /\ k <> "x-b3-spanid" /\
  k <> "x-b3-sampled".
Proof.
  unfold is_b3_key. rewrite !orb_false_iff, !String.eqb_neq. tauto.
Qed.

(** What [Inject] writes, key by key. *)
Lemma Inject_lookups (h : Heap) (sc : SpanContext) (m : gmap string string)
    (s : samplingState) :
  deref_state h sc = Some s ->
  exists m',
    Inject h sc (TextMapCarrier m) = Some (TextMapCarrier m', None) /\
    m' !! "x-b3-traceid" = Some (TraceID_String (traceID sc)) /\
    m' !! "x-b3-spanid" = Some (FormatUint16 (spanID sc)) /\
    m' !! "x-b3-sampled" = Some (if isSampled s then "1" else "0") /\
    m' !! "x-b3-parentspanid"
    = (if parentID sc =? 0 then m !! "x-b3-parentspanid"
       else Some (FormatUint16 (parentID sc))) /\
    (forall k, is_b3_key k = false -> m' !! k = m !! k).
Proof.
  intros Hs. eexists. split; [exact (Inject_carrier h sc m s Hs)|].
  destruct (parentID sc =? 0); cbn [negb].
  - repeat split.
    + now rewrite !lookup_insert_ne, lookup_insert_eq by discriminate.
    + now rewrite lookup_insert_ne, lookup_insert_eq by discriminate.
    + now rewrite lookup_insert_eq.
    + now rewrite !lookup_insert_ne by discriminate.
    + intros k Hk. destruct (not_b3_key_ne k Hk) as (H1 & H2 & H3 & H4).
      now rewrite !lookup_insert_ne by congruence.
  - repeat split.
    + now rewrite !lookup_insert_ne, lookup_insert_eq by discriminate.
    + now rewrite lookup_insert_ne, lookup_insert_eq by discriminate.
    + now rewrite lookup_insert_eq.
    + now rewrite !lookup_insert_ne, lookup_insert_eq by discriminate.
    + intros k Hk. destruct (not_b3_key_ne k Hk) as (H1 & H2 & H3 & H4).
      now rewrite !lookup_insert_ne by congruence.
Qed.


End B3Carriers.

Section B3Extract.

Import Zipkin.



End B3Extract.

Section B3Edges.

Import Zipkin.

(** X11. [Inject] into a text-map carrier never fails.  It always sets
    [x-b3-traceid], [x-b3-spanid] and [x-b3-sampled] (["1"] or ["0"]); it sets
    [x-b3-parentspanid] only for a non-zero parent ID and otherwise leaves
    whatever the carrier held under that key; every other key, other
    spellings of the B3 headers included, keeps its value. *)
Theorem Inject_writes (h : Heap) (sc : SpanContext) (m : gmap string string)
    (s : samplingState) :
  deref_state h sc = Some s ->
  exists m',
    Inject h sc (TextMapCarrier m) = Some (TextMapCarrier m', None) /\
    m' !! "x-b3-traceid" = Some (TraceID_String (traceID sc)) /\
    m' !! "x-b3-spanid" = Some (FormatUint16 (spanID sc)) /\
    m' !! "x-b3-sampled" = Some (if isSampled s then "1" else "0") /\
    (parentID sc <> 0 -> m' !! "x-b3-parentspanid" = Some (FormatUint16 (parentID sc))) /\
    (parentID sc = 0 -> m' !! "x-b3-parentspanid" = m !! "x-b3-parentspanid") /\
    (forall k, is_b3_key k = false -> m' !! k = m !! k).
Proof.
  intros Hs. destruct (Inject_lookups h sc m s Hs) as (m' & Hi & HT & HS & HB & HP & Ho).
  exists m'. repeat split; try assumption.
  - intros Hne. apply Z.eqb_neq in Hne. now rewrite Hne in HP.
  - intros E. rewrite E in HP. exact HP.
Qed.







End B3Edges.

Section B3Errors.

Import Zipkin.



Lemma handler_bad_header (st : extracted) (k v : string) :
  bad_header (k, v) -> (handler st k v).2 <> None.
Proof.
  unfold bad_header, handler. cbn [fst snd].
  intros [[-> Hv]|[[-> | ->] Hv]]; cbn [String.eqb Ascii.eqb Bool.eqb].
  - change (String.eqb "x-b3-traceid" "x-b3-traceid") with true. cbv iota.
    destruct (TraceIDFromString v) as [t [e|]] eqn:E; [easy|].
    assert (H : (TraceIDFromString v).2 = None) by now rewrite E.
    apply TraceIDFromString_accepts in H. congruence.
  - change (String.eqb "x-b3-spanid" "x-b3-traceid") with false.
    change (String.eqb "x-b3-spanid" "x-b3-parentspanid") with false.
    change (String.eqb "x-b3-spanid" "x-b3-spanid") with true. cbv iota.
    pose proof (ParseUint_hex_rejects v) as Hr. pose proof (ParseUint_empty 16 64) as He.
    destruct Hv as [->|Hv]; [now destruct (ParseUint "" 16 64) as [? [?|]]|].
    specialize (Hr Hv). now destruct (ParseUint v 16 64) as [? [?|]].
  - change (String.eqb "x-b3-parentspanid" "x-b3-traceid") with false.
    change (String.eqb "x-b3-parentspanid" "x-b3-parentspanid") with true. cbv iota.
    pose proof (ParseUint_hex_rejects v) as Hr. pose proof (ParseUint_empty 16 64) as He.
    destruct Hv as [->|Hv]; [now destruct (ParseUint "" 16 64) as [? [?|]]|].
    specialize (Hr Hv). now destruct (ParseUint v 16 64) as [? [?|]].
Qed.

Lemma ForeachKey_bad_header (entries : list (string * string)) (kv : string * string) :
  In kv entries -> bad_header kv -> forall st, (ForeachKey entries st).2 <> None.
Proof.
  intros Hin Hbad. induction entries as [|[k v] entries IH]; intros st; [easy|].
  cbn [ForeachKey]. destruct Hin as [<-|Hin].
  - pose proof (handler_bad_header st k v Hbad) as Hh.
    now destruct (handler st k v) as [st1 [e|]].
  - destruct (handler st k v) as [st1 [e|]]; [easy|]. now apply IH.
Qed.

Lemma handler_sampled_or (st : extracted) (k v : string) :
  (handler st k v).2 = None ->
  x_sampled (handler st k v).1 = x_sampled st || is_sampled_entry (k, v).
Proof.
  unfold handler, is_sampled_entry. cbn [fst snd].
  destruct (String.eqb_spec (ToLower k) "x-b3-traceid") as [->|_].
  { destruct (TraceIDFromString v); cbn. now rewrite orb_false_r. }
  destruct (String.eqb_spec (ToLower k) "x-b3-parentspanid") as [->|_].
  { destruct (ParseUint v 16 64); cbn. now rewrite orb_false_r. }
  destruct (String.eqb_spec (ToLower k) "x-b3-spanid") as [->|_].
  { destruct (ParseUint v 16 64); cbn. now rewrite orb_false_r. }
  destruct (_ && _); cbn; intros _; [now rewrite orb_true_r | now rewrite orb_false_r].
Qed.

Lemma ForeachKey_sampled (entries : list (string * string)) :
  forall st st', ForeachKey entries st = (st', None) ->
                 x_sampled st' = x_sampled st || existsb is_sampled_entry entries.
Proof.
  induction entries as [|[k v] entries IH]; intros st st' Hf.
  - injection Hf as <-. cbn. now rewrite orb_false_r.
  - cbn [ForeachKey existsb] in *. pose proof (handler_sampled_or st k v) as Hh.
    destruct (handler st k v) as [st1 [e|]]; [discriminate Hf|].
    cbn [fst snd] in Hh. rewrite (IH _ _ Hf), (Hh eq_refl). now rewrite orb_assoc.
Qed.

End B3Errors.



(** X16. One unreadable header is enough: if some entry of the carrier is
    [x-b3-traceid] with a value that is not 1 to 32 hexadecimal digits, or
    [x-b3-spanid] or [x-b3-parentspanid] with an empty value or a value holding
    a byte that is no hexadecimal digit, [Extract] answers an error with the
    empty context, whatever the other entries and the order are. *)
Theorem Extract_rejects_bad_header (h : Heap) (m : gmap string string)
    (entries : list (string * string)) (kv : string * string) :
  In kv entries -> bad_header kv ->
  exists e, Zipkin.Extract h (Zipkin.TextMapCarrier m) entries = (emptyContext, Some e, h).
Proof.
  intros Hin Hbad. unfold Zipkin.Extract.
  pose proof (ForeachKey_bad_header entries kv Hin Hbad Zipkin.extracted_init) as Hf.
  destruct (Zipkin.ForeachKey entries Zipkin.extracted_init) as [st [e|]]; [eauto|easy].
Qed.

Lemma Extract_rejects_bad_header_witness :
  exists e,
    Zipkin.Extract empty_heap (Zipkin.TextMapCarrier ∅)
      [("x-b3-traceid", "1"); ("X-B3-SpanId", "zz")] = (emptyContext, Some e, empty_heap).
Proof.
  apply (Extract_rejects_bad_header empty_heap ∅ _ ("X-B3-SpanId", "zz")).
  - right. left. reflexivity.
  - right. split; [left; reflexivity | right; reflexivity].
Defined.

(** X17. The context that [Extract] returns is sampled exactly when some
    entry is [x-b3-sampled] (under any spelling) with the value ["1"] or
    ["true"]: a ["0"] elsewhere does not take it back.  It is never debug or
    firehose, has nil baggage, an empty debug ID and a valid trace ID, and its
    sampling state is a new object. *)
Theorem Extract_sampled (h h' : Heap) (m : gmap string string)
    (entries : list (string * string)) (ctx : SpanContext) :
  Zipkin.Extract h (Zipkin.TextMapCarrier m) entries = (ctx, None, h') ->
  SpanContext_IsSampled h' ctx = Some (existsb Zipkin.is_sampled_entry entries) /\
  SpanContext_IsDebug h' ctx = Some false /\
  SpanContext_IsFirehose h' ctx = Some false /\
  baggage ctx = None /\ debugID ctx = "" /\
  TraceID_IsValid (traceID ctx) = true /\
  (exists l, samplingState_ptr ctx = Some l /\ (l ∉ dom (states h))) /\
  (forall l, l ∈ dom (states h) -> states h' !! l = states h !! l).
Proof.
  unfold Zipkin.Extract. intros He.
  destruct (Zipkin.ForeachKey entries Zipkin.extracted_init) as [st [e|]] eqn:Hf;
    [discriminate He|].
  apply ForeachKey_sampled in Hf. cbn in Hf.
  destruct (TraceID_IsValid (Zipkin.x_traceID st)) eqn:Hv; cbn [negb] in He;
    [|discriminate He].
  destruct (NewSpanContext_props h (Zipkin.x_traceID st) (Zipkin.x_spanID st)
              (Zipkin.x_parentID st) (Zipkin.x_sampled st) None)
    as (l & Hc & Hfresh & _ & Hframe & _ & Hs & Hd & Hfh).
  destruct (NewSpanContext h _ _ _ _ None) as [c1 h1]. cbn [fst snd] in *.
  injection He as <- <-. subst c1. rewrite <- Hf.
  repeat split; try assumption. exists l. split; [reflexivity | exact Hfresh].
Qed.

Lemma Extract_sampled_witness :
  exists ctx h',
    Zipkin.Extract empty_heap (Zipkin.TextMapCarrier ∅)
      [("x-b3-sampled", "0"); ("x-b3-traceid", "1"); ("X-B3-Sampled", "true")]
    = (ctx, None, h') /\
    SpanContext_IsSampled h' ctx = Some true.
Proof.
  eexists _, _. split; [reflexivity|].
  refine (proj1 (Extract_sampled empty_heap _ ∅
                   [("x-b3-sampled", "0"); ("x-b3-traceid", "1"); ("X-B3-Sampled", "true")]
                   _ eq_refl)).
Defined.

(* ===================================================================== *)
(** * The throttler: frames, first checks and requests                   *)
(* ===================================================================== *)

Section ThrottlerMore.

Import Remote.
Context {options : Type}.
Implicit Types (t : Throttler options) (r : reply).
Local Open Scope float_scope.

Lemma isThrottled_frame t (op : string) :
  uuid (isThrottled t op).2 = uuid t /\ service (isThrottled t op).2 = service t /\
  opts (isThrottled t op).2 = opts t /\ sent (isThrottled t op).2 = sent t /\
  logged (isThrottled t op).2 = logged t /\
  (forall op', op' <> op -> credits (isThrottled t op).2 !! op' = credits t !! op').
Proof.
  unfold isThrottled. destruct (_ <? _); cbn; repeat split; try reflexivity.
  intros op' Hne. now apply lookup_insert_ne.
Qed.

(** X18. [IsThrottled(operation)] leaves the balance of every other
    operation, the uuid, the service name and the options as they were. *)
Theorem IsThrottled_frame t (operation op' : string) r :
  op' <> operation ->
  credits (IsThrottled t operation r).2 !! op' = credits t !! op' /\
  uuid (IsThrottled t operation r).2 = uuid t /\
  service (IsThrottled t operation r).2 = service t /\
  opts (IsThrottled t operation r).2 = opts t.
Proof.
  intros Hne. unfold IsThrottled. destruct (credits t !! operation).
  - destruct (isThrottled_frame t operation) as (Hu & Hs & Ho & _ & _ & Hc).
    now rewrite Hc.
  - pose proof (fetchCreditsHelper_frame t [operation] r) as (Hc & Hu & Hs & Ho & _).
    destruct (fetchCreditsHelper t [operation] r) as [[|c0 cs] t1]; cbn [fst snd] in *.
    + now rewrite Hc.
    + destruct (isThrottled_frame
                  (set_credits t1 (<[ operation := Credits c0 ]> (credits t1))) operation)
        as (Hu' & Hs' & Ho' & _ & _ & Hc').
      rewrite Hc' by assumption. rewrite Hu', Hs', Ho'. cbn [set_credits credits uuid service opts].
      rewrite lookup_insert_ne by congruence. now rewrite Hc.
Qed.

(** X19. The first check of an operation, when the fetch returns something:
    the balance is seeded with the credits of the first entry returned,
    whatever operation that entry names and whatever follows it, and the check
    is then made against that balance. *)
Theorem IsThrottled_first_check t (operation : string) r (c0 : creditResponse)
    (rest : list creditResponse) :
  credits t !! operation = None ->
  uuid t <> "" ->
  decoded r = c0 :: rest ->
  is_nan (Credits c0) = false ->
  (IsThrottled t operation r).1 = negb (1 <=? Credits c0) /\
  credits (IsThrottled t operation r).2 !! operation
  = Some (if 1 <=? Credits c0 then Credits c0 - 1 else Credits c0) /\
  sent (IsThrottled t operation r).2
  = (sent t ++ [mkRequest (uuid t) (service t) [operation]])%list.
Proof.
  intros Hnone Hu Hdec Hn. unfold IsThrottled. rewrite Hnone.
  pose proof (fetchCreditsHelper_frame t [operation] r) as (Hc & _ & _ & _ & Hset & _).
  destruct (Hset Hu) as [Hsent Hres].
  destruct (fetchCreditsHelper t [operation] r) as [cs t1]. cbn [fst snd] in *.
  rewrite Hres, Hdec.
  set (t2 := set_credits t1 (<[ operation := Credits c0 ]> (credits t1))).
  assert (H2 : credits t2 !! operation = Some (Credits c0)) by apply lookup_insert_eq.
  rewrite (isThrottled_spec t2 operation (Credits c0) H2 Hn).
  destruct (1 <=? Credits c0); cbn [fst snd negb].
  - split; [reflexivity|]. split; [apply lookup_insert_eq | exact Hsent].
  - split; [reflexivity|]. split; [exact H2 | exact Hsent].
Qed.

(** X20. A poll with the uuid set sends exactly one request, carrying the
    uuid, the service name and each tracked operation once (none when nothing
    is tracked yet); with the uuid unset it sends nothing and changes no
    balance. *)
Theorem fetchCredits_request_content t r :
  (uuid t <> "" ->
   exists ops,
     sent (fetchCredits t r) = (sent t ++ [mkRequest (uuid t) (service t) ops])%list /\
     NoDup ops /\ (forall op, op ∈ ops <-> is_Some (credits t !! op))) /\
  (uuid t = "" ->
   sent (fetchCredits t r) = sent t /\ credits (fetchCredits t r) = credits t /\
   logged (fetchCredits t r) = (logged t ++ [uuid_not_set])%list).
Proof.
  unfold fetchCredits, fetchCredits_request.
  pose proof (fetchCreditsHelper_frame t (map_to_list (credits t)).*1 r)
    as (Hc & _ & _ & _ & Hset & Hunset).
  destruct (fetchCreditsHelper t _ r) as [cs t1]. cbn [fst snd] in *.
  cbn [fetchCredits_apply set_credits sent credits logged]. split.
  - intros Hu. destruct (Hset Hu) as [Hsent _].
    exists (map_to_list (credits t)).*1. split; [exact Hsent|].
    split; [apply NoDup_fst_map_to_list|].
    intros op. rewrite list_elem_of_fmap. split.
    + intros ([k v] & -> & Hin). apply elem_of_map_to_list in Hin. cbn. eauto.
    + intros [v Hv]. exists (op, v). split; [reflexivity|].
      now apply elem_of_map_to_list.
  - intros Hu. destruct (Hunset Hu) as (Hsent & Hlog & ->). cbn [foldl]. auto.
Qed.

(** Every request that a throttler has sent names its service and a uuid
    that is not empty, and there is at most one request per call. *)
Lemma sent_invariant t (cs : list call) :
  Forall (fun rq => req_service rq = service t /\ req_uuid rq <> "") (sent t) ->
  Forall (fun rq => req_service rq = service t /\ req_uuid rq <> "") (sent (run t cs)) /\
  (length (sent (run t cs)) <= length (sent t) + length cs)%nat /\
  service (run t cs) = service t.
Proof.
  revert t. induction cs as [|k cs IH]; intros t Ht; [cbn; auto with lia|].
  assert (Hstep : Forall (fun rq => req_service rq = service t /\ req_uuid rq <> "")
                    (sent (step t k)) /\
                  (length (sent (step t k)) <= length (sent t) + 1)%nat /\
                  service (step t k) = service t).
  { assert (Hh : forall ops r,
               Forall (fun rq => req_service rq = service t /\ req_uuid rq <> "")
                 (sent (fetchCreditsHelper t ops r).2) /\
               (length (sent (fetchCreditsHelper t ops r).2) <= length (sent t) + 1)%nat).
    { intros ops r.
      pose proof (fetchCreditsHelper_frame t ops r) as (_ & _ & _ & _ & Hset & Hunset).
      destruct (String.eqb_spec (uuid t) "") as [E|E].
      - destruct (Hunset E) as (-> & _). split; [exact Ht | lia].
      - destruct (Hset E) as (-> & _). rewrite length_app. cbn. split; [|lia].
        apply Forall_app. split; [exact Ht|]. repeat constructor. exact E. }
    destruct k as [op r|r|u]; cbn [step].
    - unfold IsThrottled. destruct (credits t !! op).
      + destruct (isThrottled_frame t op) as (_ & Hs & _ & Hsent & _).
        rewrite Hsent, Hs. split; [exact Ht | split; [lia | reflexivity]].
      + specialize (Hh [op] r).
        pose proof (fetchCreditsHelper_frame t [op] r) as (_ & _ & Hs & _).
        destruct (fetchCreditsHelper t [op] r) as [[|c0 cs'] t1]; cbn [fst snd] in *;
          [now rewrite Hs|].
        destruct (isThrottled_frame
                    (set_credits t1 (<[ op := Credits c0 ]> (credits t1))) op)
          as (_ & Hs' & _ & Hsent & _).
        rewrite Hsent, Hs'. cbn [set_credits sent service]. now rewrite Hs.
    - unfold fetchCredits, fetchCredits_request.
      specialize (Hh (map_to_list (credits t)).*1 r).
      pose proof (fetchCreditsHelper_frame t (map_to_list (credits t)).*1 r)
        as (_ & _ & Hs & _).
      destruct (fetchCreditsHelper t _ r) as [cs' t1]. cbn [fst snd] in *.
      cbn [fetchCredits_apply set_credits sent service]. now rewrite Hs.
    - cbn. split; [exact Ht | split; [lia | reflexivity]]. }
  destruct Hstep as (H1 & H2 & H3).
  cbn [run foldl length]. fold (run (step t k) cs).
  rewrite <- H3 in H1 |- *.
  destruct (IH (step t k) H1) as (I1 & I2 & I3). rewrite H3 in *.
  split; [exact I1|]. split; [lia | exact I3].
Qed.

(** X21. From [NewThrottler] on, through any calls, every request that
    reaches the credit manager names the throttler's service and a uuid that
    is not empty, and there is at most one request per call. *)
Theorem requests_well_formed (service : string) (o : options) (cs : list call) :
  Forall (fun rq => req_service rq = service /\ req_uuid rq <> "")
    (sent (run (NewThrottler service o) cs)) /\
  (length (sent (run (NewThrottler service o) cs)) <= length cs)%nat.
Proof.
  destruct (sent_invariant (NewThrottler service o) cs) as (H1 & H2 & _).
  - constructor.
  - split; [exact H1 | exact H2].
Qed.

End ThrottlerMore.

Section ThrottlerMoreWitnesses.

Import Remote.
Local Open Scope float_scope.

Lemma IsThrottled_frame_witness :
  let t := mkThrottler tt "svc" "u" {[ "a" := 2.5; "b" := 0.5 ]} [] [] in
  credits (IsThrottled t "a" (mkReply [] None)).2 !! "b" = Some 0.5.
Proof.
  intros t.
  destruct (IsThrottled_frame t "a" "b" (mkReply [] None)) as [H _]; [discriminate|].
  rewrite H. reflexivity.
Defined.

Lemma IsThrottled_first_check_witness :
  let t := SetUUID (NewThrottler "svc" tt) "u" in
  let r := mkReply [mkCreditResponse "other" 3; mkCreditResponse "op" 9] None in
  (IsThrottled t "op" r).1 = false /\
  credits (IsThrottled t "op" r).2 !! "op" = Some 2.
Proof.
  intros t r.
  destruct (IsThrottled_first_check t "op" r (mkCreditResponse "other" 3)
              [mkCreditResponse "op" 9]) as (H1 & H2 & _);
    try reflexivity; [discriminate|].
  split; [exact H1 | exact H2].
Defined.

Lemma fetchCredits_request_content_witness :
  let t := SetUUID (NewThrottler "svc" tt) "u" in
  exists ops,
    sent (fetchCredits t (mkReply [] None)) = ([] ++ [mkRequest "u" "svc" ops])%list /\
    NoDup ops /\ (forall op, op ∈ ops <-> is_Some (credits t !! op)).
Proof.
  intros t.
  apply (proj1 (fetchCredits_request_content t (mkReply [] None))). discriminate.
Defined.

End ThrottlerMoreWitnesses.

Lemma SpanIDFromString_denotes_witness :
  SpanIDFromString "Ff" = (255, None) /\
  (SpanIDFromString "00000000000000001").2 <> None.
Proof.
  split.
  - apply (proj1 (SpanIDFromString_denotes "Ff")). reflexivity.
  - apply (proj2 (SpanIDFromString_denotes "00000000000000001")). reflexivity.
Defined.

Lemma Inject_writes_witness :
  let h := mkHeap {[ 1%positive := mkSamplingState 0 ]} ∅ in
  let sc := mkSpanContext (mkTraceID 0 10) 11 0 None "" (Some 1%positive) in
  exists m',
    Zipkin.Inject h sc (Zipkin.TextMapCarrier {[ "X-B3-TraceId" := "ff" ]})
    = Some (Zipkin.TextMapCarrier m', None) /\
    m' !! "x-b3-traceid" = Some "a" /\ m' !! "x-b3-sampled" = Some "0" /\
    m' !! "X-B3-TraceId" = Some "ff".
Proof.
  intros h sc.
  destruct (Inject_writes h sc {[ "X-B3-TraceId" := "ff" ]} (mkSamplingState 0) eq_refl)
    as (m' & Hi & HT & _ & HB & _ & _ & Ho).
  exists m'. split; [exact Hi|]. split; [exact HT|]. split; [exact HB|].
  rewrite (Ho "X-B3-TraceId" eq_refl). reflexivity.
Defined.
